(** * Beam: the upload lifecycle engine and its admission limiter

    A shallow embedding of the server side of Beam
    (internal/server/service/upload.go, internal/server/storage,
    internal/server/database and internal/server/api/middleware.go)
    together with the properties its design document states about it.

    Conventions of the embedding:
    - Go strings are byte strings: [string] with one [ascii] per byte.
    - [int64] and [int] values are [Z]; where the source converts or adds
      without a guard the two's-complement wrap is written out.
    - [time.Time] is the number of nanoseconds since the epoch, in [Z]; a
      [TIMESTAMPTZ] column keeps whole microseconds of it.
    - [float64] is Rocq's primitive binary64 type.
    - an [error] value is kept up to [errors.Is]: wrapping a sentinel with
      more text is the sentinel. *)

From Stdlib Require Import ZArith Ascii String List Bool Lia.
From Stdlib Require Import Strings.Byte.
From Stdlib Require Import Floats Uint63.
From stdpp Require Import base option list gmap strings fin_maps.

Local Open Scope Z_scope.

(** ** Errors and outcomes *)

(** The sentinel errors of the service layer (upload.go, lines 27-36), plus
    [ErrInternal] for every error that is none of them. *)
Inductive error : Type :=
| ErrNotFound
| ErrExpired
| ErrPasswordRequired
| ErrInvalidPassword
| ErrInvalidToken
| ErrFileTooLarge
| ErrInvalidZip
| ErrDangerousFile
| ErrInternal (what : string).

(** A Go call either returns or panics at run time. *)
Inductive outcome (A : Type) : Type :=
| Ret (a : A)
| Panic.
Arguments Ret {A} a.
Arguments Panic {A}.

(** A [(T, error)] result. *)
Inductive result (A : Type) : Type :=
| Ok (a : A)
| Err (e : error).
Arguments Ok {A} a.
Arguments Err {A} e.

(** ** Archive validator, stage 1: magic bytes *)

Module Magic.

(** [data[i]]; every use below is guarded by the length test. *)
Definition at_ (data : list byte) (i : nat) : byte := nth i data x00.

Definition validateZipMagicBytes (data : list byte) : option error :=
  if (Z.of_nat (length data) <? 4) then Some ErrInvalidZip
  else
    if Byte.eqb (at_ data 0) x50 && Byte.eqb (at_ data 1) x4b then
      if (Byte.eqb (at_ data 2) x03 && Byte.eqb (at_ data 3) x04)
         || (Byte.eqb (at_ data 2) x05 && Byte.eqb (at_ data 3) x06)
      then None
      else Some ErrInvalidZip
    else Some ErrInvalidZip.

(** The two accepted signatures. *)
Definition local_file_header : list byte := [x50; x4b; x03; x04].
Definition empty_archive : list byte := [x50; x4b; x05; x06].

(** "begins with": the first four bytes are the signature. *)
Definition begins_with (sig data : list byte) : Prop :=
  exists rest, data = sig ++ rest.

End Magic.

(** ** Byte strings and the path functions of Go's standard library *)

Module GoString.

Definition bytes_of (s : string) : list ascii := list_ascii_of_string s.
Definition of_bytes (l : list ascii) : string := string_of_list_ascii l.

(** [len(s)], an [int]. *)
Definition len (s : string) : Z := Z.of_nat (String.length s).

(** [os.IsPathSeparator] on a Unix build. *)
Definition IsPathSeparator (c : ascii) : bool := Ascii.eqb c "/"%char.

(** [strings.ReplaceAll(s, old, new)] for one-byte [old] and [new]. *)
Definition ReplaceAll (s : string) (old new : ascii) : string :=
  of_bytes (List.map (fun c => if Ascii.eqb c old then new else c) (bytes_of s)).

(** The loop of [filepath.Ext]: [r] is what is left of the path read from its
    last byte backwards, [acc] the bytes already passed. *)
Fixpoint ext_scan (r acc : list ascii) : list ascii :=
  match r with
  | [] => []
  | c :: r' =>
      if IsPathSeparator c then []
      else if Ascii.eqb c "."%char then c :: acc
      else ext_scan r' (c :: acc)
  end.

(** [filepath.Ext]: the suffix beginning at the final dot of the final
    element of the path, empty if there is no dot. *)
Definition Ext (path : string) : string :=
  of_bytes (ext_scan (rev (bytes_of path)) []).

(** Strip the trailing slashes of a path read backwards. *)
Fixpoint strip_slashes (r : list ascii) : list ascii :=
  match r with
  | c :: r' => if IsPathSeparator c then strip_slashes r' else r
  | [] => []
  end.

(** The last element of a path read backwards (still reversed). *)
Fixpoint last_element (r : list ascii) : list ascii :=
  match r with
  | c :: r' => if IsPathSeparator c then [] else c :: last_element r'
  | [] => []
  end.

(** [filepath.Base] on a Unix build (no volume names). *)
Definition Base (path : string) : string :=
  if String.eqb path EmptyString then "."%string
  else
    let e := rev (last_element (strip_slashes (rev (bytes_of path)))) in
    match e with
    | [] => "/"%string
    | _ => of_bytes e
    end.

(** [s[:n]]: panics unless [0 <= n <= len(s)]. *)
Definition slice_to (s : string) (n : Z) : outcome string :=
  if (n <? 0) || (len s <? n) then Panic
  else Ret (of_bytes (firstn (Z.to_nat n) (bytes_of s))).

(** The [..] case of [filepath.Clean]: [out.w--], then
    [for out.w > dotdot && !os.IsPathSeparator(out.index(out.w)) { out.w-- }].
    [out] is the buffer written so far, its last byte first. *)
Fixpoint backtrack (out : list ascii) (dotdot : nat) : list ascii :=
  match out with
  | [] => []
  | c :: out' =>
      if (dotdot <? length out')%nat && negb (IsPathSeparator c)
      then backtrack out' dotdot
      else out'
  end.

(** [r == n || os.IsPathSeparator(path[r])]: the element read so far is over. *)
Definition at_end (r : list ascii) : bool :=
  match r with
  | [] => true
  | c :: _ => IsPathSeparator c
  end.

(** The separator [filepath.Clean] writes in front of a real path element:
    [if rooted && out.w != 1 || !rooted && out.w != 0]. *)
Definition with_separator (rooted : bool) (out : list ascii) : list ascii :=
  if (rooted && negb (length out =? 1)%nat) || (negb rooted && negb (length out =? 0)%nat)
  then "/"%char :: out else out.

(** The [for r < n] loop of [filepath.Clean]: [r] is what is left to read,
    [out] the buffer (last byte first); [inside] says that the bytes of a real
    path element are being copied. *)
Fixpoint clean_loop (rooted inside : bool) (r out : list ascii) (dotdot : nat)
  : list ascii :=
  match r with
  | [] => out
  | c :: r1 =>
      let element := clean_loop rooted true r1 (c :: with_separator rooted out) dotdot in
      if IsPathSeparator c then clean_loop rooted false r1 out dotdot
      else if inside then clean_loop rooted true r1 (c :: out) dotdot
      else if Ascii.eqb c "."%char && at_end r1 then
        clean_loop rooted false r1 out dotdot
      else
        match r1 with
        | c1 :: r2 =>
            if Ascii.eqb c "."%char && Ascii.eqb c1 "."%char && at_end r2 then
              if (dotdot <? length out)%nat then
                clean_loop rooted false r2 (backtrack out dotdot) dotdot
              else if negb rooted then
                let out1 := if (0 <? length out)%nat then "/"%char :: out else out in
                let out2 := "."%char :: "."%char :: out1 in
                clean_loop rooted false r2 out2 (length out2)
              else clean_loop rooted false r2 out dotdot
            else element
        | [] => element
        end
  end.

(** [filepath.Clean] on a Unix build (no volume names). *)
Definition Clean (path : string) : string :=
  match bytes_of path with
  | [] => "."%string
  | c :: rest =>
      let out :=
        if IsPathSeparator c then clean_loop true false rest ["/"%char] 1
        else clean_loop false false (c :: rest) [] 0 in
      match out with
      | [] => "."%string
      | _ => of_bytes (rev out)
      end
  end.

(** [filepath.Join(a, b)]: the non-empty elements, joined with a separator
    and cleaned. *)
Definition Join (a b : string) : string :=
  if String.eqb a EmptyString then
    if String.eqb b EmptyString then EmptyString else Clean b
  else Clean (a ++ "/" ++ b).

End GoString.

(** ** Filename sanitization (upload.go, lines 350-369) *)

Definition sanitizeFilename (name : string) : outcome string :=
  let name := GoString.ReplaceAll name "\"%char "/"%char in
  let name := GoString.Base name in
  let limited :=
    if (255 <? GoString.len name) then
      let ext := GoString.Ext name in
      match GoString.slice_to name (255 - GoString.len ext) with
      | Ret prefix => Ret (prefix ++ ext)%string
      | Panic => Panic
      end
    else Ret name in
  match limited with
  | Ret name =>
      if String.eqb name EmptyString || String.eqb name "."%string
      then Ret "upload.zip"%string
      else Ret name
  | Panic => Panic
  end.

(** ** Secure token generator (upload.go, lines 300-311) *)

(** The randomness source [rand.Reader]: the values it will deliver, in order;
    [None] is a failed read, and so is a drained source. *)
Definition entropy : Type := list (option Z).

(** [rand.Int(rand.Reader, max)] for [max > 0]: a value in [0, max), or the
    error of the source. *)
Definition rand_Int (max : Z) (src : entropy) : result Z * entropy :=
  match src with
  | Some raw :: src' => (Ok (raw mod max), src')
  | None :: src' => (Err (ErrInternal "crypto/rand failure"), src')
  | [] => (Err (ErrInternal "crypto/rand failure"), [])
  end.

Definition charset : string :=
  "abcdefghijklmnopqrstuvwxyzABCDEFGHIJKLMNOPQRSTUVWXYZ0123456789".

(** [charset[k]] for [0 <= k < len(charset)]. *)
Definition charset_at (k : Z) : ascii :=
  nth (Z.to_nat k) (GoString.bytes_of charset) "000"%char.

(** The [for] loop of [generateSecureToken], with [n] iterations to go. *)
Fixpoint fill_token (n : nat) (src : entropy) : result (list ascii) * entropy :=
  match n with
  | O => (Ok [], src)
  | S n' =>
      match rand_Int (GoString.len charset) src with
      | (Err e, src') => (Err e, src')
      | (Ok k, src') =>
          match fill_token n' src' with
          | (Ok rest, src'') => (Ok (charset_at k :: rest), src'')
          | (Err e, src'') => (Err e, src'')
          end
      end
  end.

(** [make([]byte, length)] panics on a negative length. *)
Definition generateSecureToken (length : Z) (src : entropy)
  : outcome (result string) * entropy :=
  if (length <? 0) then (Panic, src)
  else
    match fill_token (Z.to_nat length) src with
    | (Ok bs, src') => (Ret (Ok (GoString.of_bytes bs)), src')
    | (Err e, src') => (Ret (Err e), src')
    end.

(** ** What the service takes from libraries *)

(** An entry of the central directory, as [archive/zip] returns it: the
    fields of [zip.File] the service reads. [UncompressedSize64] is a
    [uint64]. *)
Record ZipEntry : Type := {
  Name : string;
  UncompressedSize64 : Z
}.

(** The library calls whose results the service only passes on.
    - [zip_NewReader]: [zip.NewReader] on the whole buffer; the entries of
      [reader.File] in order, or [None] when it returns an error;
    - [strings_ToLower]: [strings.ToLower];
    - [sha256_hex]: [hex.EncodeToString] of the SHA-256 digest;
    - [bcrypt_GenerateFromPassword]: [None] when it returns an error;
    - [bcrypt_CompareHashAndPassword hash password]: [true] when it returns
      [nil]. *)
Record GoLib : Type := {
  zip_NewReader : list byte -> option (list ZipEntry);
  strings_ToLower : string -> string;
  sha256_hex : list byte -> string;
  bcrypt_GenerateFromPassword : string -> option string;
  bcrypt_CompareHashAndPassword : string -> string -> bool
}.

(** [int64(x)] of a 64-bit value and the result of an [int64] addition:
    two's-complement wrap-around. *)
Definition wrap64 (z : Z) : Z := (z + 2 ^ 63) mod 2 ^ 64 - 2 ^ 63.

(** ** Archive validator, stage 2: structural scan (upload.go, 38-44, 331-347) *)

Definition dangerousExtensions : gmap string bool :=
  list_to_map
    [ (".exe", true); (".bat", true); (".cmd", true); (".com", true);
      (".scr", true); (".pif", true); (".vbs", true); (".vbe", true);
      (".wsf", true); (".wsh", true); (".msi", true); (".hta", true);
      (".lnk", true); (".cpl", true); (".inf", true); (".reg", true) ]%string.

(** [dangerousExtensions[ext]]: a missing key reads as [false]. *)
Definition is_dangerous (ext : string) : bool :=
  default false (dangerousExtensions !! ext).

(** The [for _, f := range reader.File] loop, [total] being
    [totalUncompressed] so far. *)
Fixpoint scan_entries (L : GoLib) (files : list ZipEntry) (total : Z) : result Z :=
  match files with
  | [] => Ok total
  | f :: rest =>
      let ext := strings_ToLower L (GoString.Ext (Name f)) in
      if is_dangerous ext then Err ErrDangerousFile
      else scan_entries L rest (wrap64 (total + wrap64 (UncompressedSize64 f)))
  end.

Definition validateAndMeasureZip (L : GoLib) (data : list byte) : result Z :=
  match zip_NewReader L data with
  | None => Err ErrInvalidZip
  | Some files => scan_entries L files 0
  end.

(** ** The record store (database package) *)

Module database.

Record Upload : Type := {
  ID : string;
  Filename : string;
  OriginalSize : Z;
  CompressedSize : Z;
  FileHash : string;
  UploadedAt : Z;
  ExpiresAt : Z;
  DownloadCount : Z;
  PasswordHash : option string;
  DeletionToken : string;
  CreatedAt : Z
}.

(** The [uploads] table: [id] is its primary key. The statements run against
    a database that answers; they fail only as the schema makes them. *)
Abbreviation table := (gmap string Upload).

(** [INSERT INTO uploads ...]: refused when the primary key is taken. *)
Definition Create (u : Upload) (t : table) : option error * table :=
  match t !! ID u with
  | Some _ => (Some (ErrInternal "failed to create upload"), t)
  | None => (None, <[ID u := u]> t)
  end.

(** [SELECT ... WHERE id = $1]; [None] is [ErrUploadNotFound]. *)
Definition GetByID (id : string) (t : table) : option Upload := t !! id.

Definition bump (u : Upload) : Upload :=
  {| ID := ID u; Filename := Filename u; OriginalSize := OriginalSize u;
     CompressedSize := CompressedSize u; FileHash := FileHash u;
     UploadedAt := UploadedAt u; ExpiresAt := ExpiresAt u;
     DownloadCount := DownloadCount u + 1;
     PasswordHash := PasswordHash u; DeletionToken := DeletionToken u;
     CreatedAt := CreatedAt u |}.

(** [UPDATE uploads SET download_count = download_count + 1 WHERE id = $1];
    [false] is [ErrUploadNotFound] (no row affected). *)
Definition IncrementDownloadCount (id : string) (t : table) : bool * table :=
  match t !! id with
  | Some u => (true, <[id := bump u]> t)
  | None => (false, t)
  end.

(** [DELETE FROM uploads WHERE id = $1]; [false] is [ErrUploadNotFound]. *)
Definition Delete (id : string) (t : table) : bool * table :=
  match t !! id with
  | Some _ => (true, delete id t)
  | None => (false, t)
  end.

(** [SELECT ... WHERE expires_at < NOW()]. *)
Definition GetExpired (now : Z) (t : table) : list Upload :=
  List.filter (fun u => ExpiresAt u <? now) (snd <$> map_to_list t).

(** [SELECT ... WHERE file_hash = $1 AND expires_at > NOW() LIMIT 1]. *)
Definition GetByHash (hash : string) (now : Z) (t : table) : option Upload :=
  List.find (fun u => String.eqb (FileHash u) hash && (now <? ExpiresAt u))
            (snd <$> map_to_list t).

End database.

(** ** The blob store (storage/filesystem.go) *)

Module storage.

(** The ways the file system can refuse a call, per upload id:
    [createFails]: [os.Create] errors; [writeFails id = Some k]: [io.Copy]
    errors after [k] bytes; [removeFails]: [os.Remove] errors with something
    else than "does not exist"; [statFails]: [os.Stat] errors likewise. *)
Record Faults : Type := {
  createFails : string -> bool;
  writeFails : string -> option nat;
  removeFails : string -> bool;
  statFails : string -> bool
}.

(** The files under [basePath], by upload id. *)
Abbreviation files := (gmap string (list byte)).

Definition Save (F : Faults) (uploadID : string) (data : list byte) (fs : files)
  : result Z * files :=
  if createFails F uploadID then (Err (ErrInternal "failed to create file"), fs)
  else
    match writeFails F uploadID with
    | Some k =>
        (* the partial file is removed, if the removal goes through *)
        let fs' := if removeFails F uploadID
                   then <[uploadID := firstn k data]> fs
                   else delete uploadID fs in
        (Err (ErrInternal "failed to write file"), fs')
    | None => (Ok (Z.of_nat (length data)), <[uploadID := data]> fs)
    end.

Definition GetPath (F : Faults) (basePath uploadID : string) (fs : files)
  : result string :=
  match fs !! uploadID with
  | None => Err (ErrInternal "file not found for upload")
  | Some _ =>
      if statFails F uploadID then Err (ErrInternal "failed to stat file")
      else Ok (basePath ++ "/" ++ uploadID ++ ".zip")%string
  end.

(** [None] is a [nil] error: removing a file that is not there is no error. *)
Definition Delete (F : Faults) (uploadID : string) (fs : files)
  : option error * files :=
  if removeFails F uploadID then (Some (ErrInternal "failed to delete file"), fs)
  else (None, delete uploadID fs).

End storage.

(** ** The upload lifecycle service (service/upload.go) *)

Module service.

Record Config : Type := {
  MaxFileSize : Z;
  DefaultExpiry : Z;
  BaseURL : string
}.

Record UploadResult : Type := {
  res_ID : string;
  res_DownloadURL : string;
  res_DeletionToken : string;
  res_ExpiresAt : Z;
  res_Filename : string;
  res_Size : Z
}.

Record UploadInfo : Type := {
  info_ID : string;
  info_Filename : string;
  info_OriginalSize : Z;
  info_CompressedSize : Z;
  info_UploadedAt : Z;
  info_ExpiresAt : Z;
  info_DownloadCount : Z;
  info_HasPassword : bool
}.

(** What a call can change: both stores and the randomness source. *)
Record World : Type := {
  records : database.table;
  blobs : storage.files;
  rand : entropy
}.

Definition with_records (t : database.table) (w : World) : World :=
  {| records := t; blobs := blobs w; rand := rand w |}.
Definition with_blobs (fs : storage.files) (w : World) : World :=
  {| records := records w; blobs := fs; rand := rand w |}.
Definition with_rand (r : entropy) (w : World) : World :=
  {| records := records w; blobs := blobs w; rand := r |}.

(** A service call: it returns a value, returns an error or panics, and
    leaves a world behind. *)
Definition M (A : Type) : Type := World -> outcome (result A) * World.

Definition ret {A} (a : A) : M A := fun w => (Ret (Ok a), w).
Definition fail {A} (e : error) : M A := fun w => (Ret (Err e), w).
Definition bind {A B} (c : M A) (k : A -> M B) : M B :=
  fun w =>
    match c w with
    | (Ret (Ok a), w') => k a w'
    | (Ret (Err e), w') => (Ret (Err e), w')
    | (Panic, w') => (Panic, w')
    end.

Notation "'let*' x ':=' c 'in' k" := (bind c (fun x => k))
  (at level 10, x pattern, c at level 100, k at level 200).

(** [generateSecureToken] on the world's source; its error is wrapped. *)
Definition newToken (length : Z) (what : string) : M string :=
  fun w =>
    match generateSecureToken length (rand w) with
    | (Ret (Ok s), r) => (Ret (Ok s), with_rand r w)
    | (Ret (Err _), r) => (Ret (Err (ErrInternal what)), with_rand r w)
    | (Panic, r) => (Panic, with_rand r w)
    end.

(** [if err != nil { return nil, err }] on a value computed without effect. *)
Definition lift {A} (r : result A) : M A := fun w => (Ret r, w).
Definition check (r : option error) : M unit :=
  fun w => match r with Some e => (Ret (Err e), w) | None => (Ret (Ok tt), w) end.
Definition liftO {A} (o : outcome A) : M A :=
  fun w => match o with Ret a => (Ret (Ok a), w) | Panic => (Panic, w) end.

(** [s.store.Save]; its error is wrapped. *)
Definition storeSave (F : storage.Faults) (id : string) (data : list byte) : M Z :=
  fun w =>
    match storage.Save F id data (blobs w) with
    | (Ok n, fs) => (Ret (Ok n), with_blobs fs w)
    | (Err _, fs) => (Ret (Err (ErrInternal "failed to store file")), with_blobs fs w)
    end.

(** [s.store.Delete(id)] with its result dropped. *)
Definition storeDelete_ (F : storage.Faults) (id : string) : M unit :=
  fun w => (Ret (Ok tt), with_blobs (snd (storage.Delete F id (blobs w))) w).

(** Step 8: the password hash, [nil] for the empty password. *)
Definition hashPassword (L : GoLib) (F : storage.Faults) (uploadID password : string)
  : M (option string) :=
  if String.eqb password EmptyString then ret None
  else
    match bcrypt_GenerateFromPassword L password with
    | None =>
        let* _ := storeDelete_ F uploadID in
        fail (ErrInternal "failed to hash password")
    | Some h => ret (Some h)
    end.

(** Step 9: [s.repo.Create], with the stored file removed when it fails. *)
Definition createRecord (F : storage.Faults) (upload : database.Upload) : M unit :=
  fun w =>
    match database.Create upload (records w) with
    | (Some _, t) =>
        (let* _ := storeDelete_ F (database.ID upload) in
         fail (ErrInternal "failed to create upload record")) (with_records t w)
    | (None, t) => (Ret (Ok tt), with_records t w)
    end.

(** [data] is what reading the request body gives: the bytes, or an error. *)
Definition ProcessUpload (L : GoLib) (cfg : Config) (F : storage.Faults) (now : Z)
    (filename : string) (data : result (list byte)) (size : Z) (password : string)
  : M UploadResult :=
  if (MaxFileSize cfg <? size) then fail ErrFileTooLarge
  else
    let* uploadID := newToken 16 "failed to generate upload ID" in
    let* deletionToken := newToken 24 "failed to generate deletion token" in
    let deletionToken := ("del_" ++ deletionToken)%string in
    let* zipData :=
      lift (match data with
            | Ok bs => Ok bs
            | Err _ => Err (ErrInternal "failed to read upload data")
            end) in
    let fileHash := sha256_hex L zipData in
    let* _ := check (Magic.validateZipMagicBytes zipData) in
    let* originalSize := lift (validateAndMeasureZip L zipData) in
    (* step 6, the duplicate lookup, only writes to the log *)
    let* storedBytes := storeSave F uploadID zipData in
    let* passwordHash := hashPassword L F uploadID password in
    let* name := liftO (sanitizeFilename filename) in
    let upload :=
      {| database.ID := uploadID;
         database.Filename := name;
         database.OriginalSize := originalSize;
         database.CompressedSize := storedBytes;
         database.FileHash := fileHash;
         database.UploadedAt := now;
         database.ExpiresAt := now + DefaultExpiry cfg;
         database.DownloadCount := 0;
         database.PasswordHash := passwordHash;
         database.DeletionToken := deletionToken;
         database.CreatedAt := now |} in
    let* _ := createRecord F upload in
    ret {| res_ID := uploadID;
           res_DownloadURL := (BaseURL cfg ++ "/d/" ++ uploadID)%string;
           res_DeletionToken := deletionToken;
           res_ExpiresAt := database.ExpiresAt upload;
           res_Filename := database.Filename upload;
           res_Size := storedBytes |}.

(** [t.After(u)]. *)
Definition After (t u : Z) : bool := u <? t.

Definition GetInfo (now : Z) (id : string) (w : World) : result UploadInfo :=
  match database.GetByID id (records w) with
  | None => Err ErrNotFound
  | Some upload =>
      if After now (database.ExpiresAt upload) then Err ErrExpired
      else
        Ok {| info_ID := database.ID upload;
              info_Filename := database.Filename upload;
              info_OriginalSize := database.OriginalSize upload;
              info_CompressedSize := database.CompressedSize upload;
              info_UploadedAt := database.UploadedAt upload;
              info_ExpiresAt := database.ExpiresAt upload;
              info_DownloadCount := database.DownloadCount upload;
              info_HasPassword :=
                match database.PasswordHash upload with
                | Some _ => true
                | None => false
                end |}
  end.

(** The password gate of [Download]. *)
Definition checkPassword (L : GoLib) (upload : database.Upload) (password : string)
  : option error :=
  match database.PasswordHash upload with
  | None => None
  | Some h =>
      if String.eqb password EmptyString then Some ErrPasswordRequired
      else if bcrypt_CompareHashAndPassword L h password then None
      else Some ErrInvalidPassword
  end.

Definition Download (L : GoLib) (F : storage.Faults) (basePath : string) (now : Z)
    (id password : string) (w : World) : result (string * string) * World :=
  match database.GetByID id (records w) with
  | None => (Err ErrNotFound, w)
  | Some upload =>
      if After now (database.ExpiresAt upload) then (Err ErrExpired, w)
      else
        match checkPassword L upload password with
        | Some e => (Err e, w)
        | None =>
            match storage.GetPath F basePath id (blobs w) with
            | Err _ => (Err (ErrInternal "file not found on disk"), w)
            | Ok path =>
                let '(_, t) := database.IncrementDownloadCount id (records w) in
                (Ok (path, database.Filename upload), with_records t w)
            end
        end
  end.

(** [None] is the [nil] error. *)
Definition DeleteUpload (F : storage.Faults) (id token : string) (w : World)
  : option error * World :=
  match database.GetByID id (records w) with
  | None => (Some ErrNotFound, w)
  | Some upload =>
      if negb (String.eqb (database.DeletionToken upload) token)
      then (Some ErrInvalidToken, w)
      else
        (* the error of the store is logged and dropped *)
        let '(_, fs) := storage.Delete F id (blobs w) in
        let w1 := with_blobs fs w in
        match database.Delete id (records w1) with
        | (false, t) =>
            (Some (ErrInternal "failed to delete upload record"), with_records t w1)
        | (true, t) => (None, with_records t w1)
        end
  end.

End service.

(** ** The reclamation cycle (storage/cleanup.go, lines 59-108) *)

Module cleanup.

(** The counters of a cycle, as its last log line reports them. *)
Record Summary : Type := {
  cleaned : Z;
  failed : Z
}.

(** The body of [for _, upload := range expired]. *)
Fixpoint sweep (F : storage.Faults) (expired : list database.Upload)
    (acc : Summary) (w : service.World) : Summary * service.World :=
  match expired with
  | [] => (acc, w)
  | upload :: rest =>
      let id := database.ID upload in
      match storage.Delete F id (service.blobs w) with
      | (Some _, fs) =>
          sweep F rest {| cleaned := cleaned acc; failed := failed acc + 1 |}
                (service.with_blobs fs w)
      | (None, fs) =>
          let w1 := service.with_blobs fs w in
          match database.Delete id (service.records w1) with
          | (false, t) =>
              sweep F rest {| cleaned := cleaned acc; failed := failed acc + 1 |}
                    (service.with_records t w1)
          | (true, t) =>
              sweep F rest {| cleaned := cleaned acc + 1; failed := failed acc |}
                    (service.with_records t w1)
          end
      end
  end.

(** [None] when the cycle had nothing to do. *)
Definition runCleanup (F : storage.Faults) (now : Z) (w : service.World)
  : option Summary * service.World :=
  let expired := database.GetExpired now (service.records w) in
  match expired with
  | [] => (None, w)
  | _ =>
      let '(s, w') := sweep F expired {| cleaned := 0; failed := 0 |} w in
      (Some s, w')
  end.

End cleanup.

(** ** The admission limiter (api/middleware.go, lines 12-24, 61-90) *)

Module limiter.

Local Open Scope float_scope.

(** [float64(n)] of a 64-bit integer, rounded to nearest. The primitive
    conversion takes 63 bits, which leaves out [-2^63] alone. *)
Definition float64_of_int (n : Z) : float :=
  if (n =? - 2 ^ 63)%Z then - (PrimFloat.of_uint63 (Uint63.of_Z (2 ^ 62)) * 2)
  else if (n <? 0)%Z then - PrimFloat.of_uint63 (Uint63.of_Z (- n))
  else PrimFloat.of_uint63 (Uint63.of_Z n).

(** A [time.Duration]: nanoseconds in an [int64]; [Time.Sub] saturates. *)
Definition minDuration : Z := - 2 ^ 63.
Definition maxDuration : Z := 2 ^ 63 - 1.
Definition Sub (t u : Z) : Z :=
  let d := (t - u)%Z in
  if (d <? minDuration)%Z then minDuration
  else if (maxDuration <? d)%Z then maxDuration
  else d.

(** [Duration.Seconds]: [float64(d / Second) + float64(d % Second) / 1e9],
    with Go's truncated division. *)
Definition Seconds (d : Z) : float :=
  let sec := Z.quot d 1000000000 in
  let nsec := Z.rem d 1000000000 in
  float64_of_int sec + float64_of_int nsec / 1000000000.

Record visitor : Type := {
  tokens : float;
  lastCheck : Z
}.

Record RateLimiter : Type := {
  visitors : gmap string visitor;
  rate : float;
  burst : Z
}.

Definition with_visitor (ip : string) (v : visitor) (rl : RateLimiter) : RateLimiter :=
  {| visitors := <[ip := v]> (visitors rl); rate := rate rl; burst := burst rl |}.

Definition NewRateLimiter (rps : float) (burst : Z) : RateLimiter :=
  {| visitors := ∅; rate := rps; burst := burst |}.

(** The balance after the refill of lines 77-81. *)
Definition refill (rl : RateLimiter) (v : visitor) (now : Z) : float :=
  let elapsed := Seconds (Sub now (lastCheck v)) in
  let t := tokens v + elapsed * rate rl in
  if float64_of_int (burst rl) <? t then float64_of_int (burst rl) else t.

(** [allow], run under the limiter's lock; [now] is what [time.Now()] read. *)
Definition allow (now : Z) (ip : string) (rl : RateLimiter) : bool * RateLimiter :=
  match visitors rl !! ip with
  | None =>
      (true, with_visitor ip {| tokens := float64_of_int (burst rl) - 1;
                                lastCheck := now |} rl)
  | Some v =>
      let t := refill rl v now in
      if t <? 1 then (false, with_visitor ip {| tokens := t; lastCheck := now |} rl)
      else (true, with_visitor ip {| tokens := t - 1; lastCheck := now |} rl)
  end.

(** Requests of one address at the given clock readings, in order: the
    verdicts and the limiter left behind. *)
Fixpoint requests (ip : string) (times : list Z) (rl : RateLimiter)
  : list bool * RateLimiter :=
  match times with
  | [] => ([], rl)
  | now :: rest =>
      let '(ok, rl1) := allow now ip rl in
      let '(oks, rl2) := requests ip rest rl1 in
      (ok :: oks, rl2)
  end.

End limiter.

(** ** Vocabulary of the properties *)

(** A string over the token alphabet. *)
Definition over_charset (s : string) : Prop :=
  Forall (fun c => In c (GoString.bytes_of charset)) (GoString.bytes_of s).

(** The denylist as the design document prints it. *)
Definition denylist : list string :=
  [ ".exe"; ".bat"; ".cmd"; ".com"; ".scr"; ".pif"; ".vbs"; ".vbe";
    ".wsf"; ".wsh"; ".msi"; ".hta"; ".lnk"; ".cpl"; ".inf"; ".reg" ]%string.



(** Every row sits under its own [id]: what the primary key gives. *)
Definition table_wf (t : database.table) : Prop :=
  forall id u, t !! id = Some u -> database.ID u = id.

(** Where a failed run stopped, and what it left in the blob store. *)
Inductive stopped (F : storage.Faults) (w w' : service.World) : error -> Prop :=
| stop_early (e : error) :
    service.blobs w' = service.blobs w ->
    e = ErrFileTooLarge \/ e = ErrInvalidZip \/ e = ErrDangerousFile \/
    e = ErrInternal "failed to generate upload ID" \/
    e = ErrInternal "failed to generate deletion token" \/
    e = ErrInternal "failed to read upload data" ->
    stopped F w w' e
| stop_save (uploadID : string) (zipData : list byte) (e0 : error) :
    storage.Save F uploadID zipData (service.blobs w) = (Err e0, service.blobs w') ->
    stopped F w w' (ErrInternal "failed to store file")
| stop_late (uploadID : string) (zipData : list byte) (n : Z) (fs1 : storage.files)
    (e : error) :
    storage.Save F uploadID zipData (service.blobs w) = (Ok n, fs1) ->
    service.blobs w' = snd (storage.Delete F uploadID fs1) ->
    e = ErrInternal "failed to hash password" \/
    e = ErrInternal "failed to create upload record" ->
    stopped F w w' e.

(** What [Download] does once the expiry check is behind it. *)
Definition Download_rest (L : GoLib) (F : storage.Faults) (basePath : string)
    (id password : string) (upload : database.Upload) (w : service.World)
  : result (string * string) * service.World :=
  match service.checkPassword L upload password with
  | Some e => (Err e, w)
  | None =>
      match storage.GetPath F basePath id (service.blobs w) with
      | Err _ => (Err (ErrInternal "file not found on disk"), w)
      | Ok path =>
          (Ok (path, database.Filename upload),
           service.with_records
             (snd (database.IncrementDownloadCount id (service.records w))) w)
      end
  end.

(** The expired uploads a cycle gets rid of: those whose blob the store
    removes. *)
Definition reclaimed (F : storage.Faults) (expired : list database.Upload)
    (id : string) : bool :=
  existsb (fun u => String.eqb (database.ID u) id) expired
  && negb (storage.removeFails F id).

(** The limiter seen from one address: the transition of its entry. *)
Definition limiter_step (r : float) (b : Z) (now : Z) (o : option limiter.visitor)
  : bool * limiter.visitor :=
  match o with
  | None =>
      (true, {| limiter.tokens := PrimFloat.sub (limiter.float64_of_int b) 1;
                limiter.lastCheck := now |})
  | Some v =>
      let elapsed := limiter.Seconds (limiter.Sub now (limiter.lastCheck v)) in
      let sum := PrimFloat.add (limiter.tokens v) (PrimFloat.mul elapsed r) in
      let capped :=
        if PrimFloat.ltb (limiter.float64_of_int b) sum
        then limiter.float64_of_int b else sum in
      if PrimFloat.ltb capped 1
      then (false, {| limiter.tokens := capped; limiter.lastCheck := now |})
      else (true, {| limiter.tokens := PrimFloat.sub capped 1;
                     limiter.lastCheck := now |})
  end.

(** The verdicts of successive requests of one address. *)
Fixpoint limiter_run (r : float) (b : Z) (times : list Z) (o : option limiter.visitor)
  : list bool :=
  match times with
  | [] => []
  | now :: rest =>
      let '(ok, v) := limiter_step r b now o in
      ok :: limiter_run r b rest (Some v)
  end.

(** An entry with its time stamp moved by [d]. *)
Definition limiter_shift (d : Z) (v : limiter.visitor) : limiter.visitor :=
  {| limiter.tokens := limiter.tokens v;
     limiter.lastCheck := limiter.lastCheck v + d |}.

(** ** Instances used to run the model *)

Module Sample.

(** ASCII lower-casing, which is [strings.ToLower] on ASCII names. *)
Definition lower_byte (c : ascii) : ascii :=
  let n := nat_of_ascii c in
  if (65 <=? n)%nat && (n <=? 90)%nat then ascii_of_nat (n + 32) else c.
Definition ascii_lower (s : string) : string :=
  GoString.of_bytes (List.map lower_byte (GoString.bytes_of s)).

(** A library in which every buffer parses to the given entries, nothing is
    hashed, and [bcrypt] refuses passwords of more than 72 bytes. *)
Definition lib (files : list ZipEntry) : GoLib :=
  {| zip_NewReader := fun _ => Some files;
     strings_ToLower := ascii_lower;
     sha256_hex := fun _ => "e3b0c44298fc1c14"%string;
     bcrypt_GenerateFromPassword := fun p =>
       if (72 <? GoString.len p) then None else Some ("$2a$10$" ++ p)%string;
     bcrypt_CompareHashAndPassword := fun h p =>
       String.eqb h ("$2a$10$" ++ p)%string |}.


Definition healthy : storage.Faults :=
  {| storage.createFails := fun _ => false;
     storage.writeFails := fun _ => None;
     storage.removeFails := fun _ => false;
     storage.statFails := fun _ => false |}.

(** A file system on which no file can be removed. *)
Definition stuck : storage.Faults :=
  {| storage.createFails := fun _ => false;
     storage.writeFails := fun _ => None;
     storage.removeFails := fun _ => true;
     storage.statFails := fun _ => false |}.


Definition cfg : service.Config :=
  {| service.MaxFileSize := 5368709120;
     service.DefaultExpiry := 604800000000000;
     service.BaseURL := "http://localhost:8080" |}.

(** An empty archive: the end-of-central-directory record alone. *)
Definition empty_zip : list byte :=
  [x50; x4b; x05; x06] ++ repeat x00 18.

Definition upload (id token : string) (expires : Z) : database.Upload :=
  {| database.ID := id;
     database.Filename := "notes.zip";
     database.OriginalSize := 0;
     database.CompressedSize := 22;
     database.FileHash := "e3b0c44298fc1c14";
     database.UploadedAt := 0;
     database.ExpiresAt := expires;
     database.DownloadCount := 0;
     database.PasswordHash := None;
     database.DeletionToken := token;
     database.CreatedAt := 0 |}.

(** A world holding one upload with its blob. *)
Definition one (id token : string) (expires : Z) : service.World :=
  {| service.records := {[ id := upload id token expires ]};
     service.blobs := {[ id := empty_zip ]};
     service.rand := [] |}.


(** An empty world whose source delivers [n] values. *)
Definition fresh (n : nat) : service.World :=
  {| service.records := ∅;
     service.blobs := ∅;
     service.rand := List.map (fun k => Some (Z.of_nat k * 7)) (seq 0 n) |}.

End Sample.

(** ** The rest of the server *)

(** *** Aggregate statistics (database package: [Stats], [GetStats]) *)

Module stats.

Record Stats : Type := {
  TotalUploads : Z;
  ActiveUploads : Z;
  TotalDownloads : Z;
  StorageUsed : Z
}.

(** The rows of the table. *)
Definition rows (t : database.table) : list database.Upload :=
  snd <$> map_to_list t.

(** [expires_at > NOW()]. *)
Definition active (now : Z) (u : database.Upload) : bool :=
  now <? database.ExpiresAt u.

(** [SUM(...)], with [COALESCE(..., 0)] for no row. *)
Definition total (l : list Z) : Z := fold_right Z.add 0 l.

(** The aggregate query of [GetStats]: the number of rows, the number of
    rows with [expires_at > NOW()], the sum of [download_count], and the sum
    of [compressed_size] over the rows with [expires_at > NOW()]. *)
Definition GetStats (now : Z) (t : database.table) : Stats :=
  {| TotalUploads := Z.of_nat (length (rows t));
     ActiveUploads := Z.of_nat (length (List.filter (active now) (rows t)));
     TotalDownloads := total (List.map database.DownloadCount (rows t));
     StorageUsed :=
       total (List.map database.CompressedSize (List.filter (active now) (rows t))) |}.

End stats.

(** *** The sweep of the limiter (middleware.go, lines 92-102) *)

Module janitor.

(** [10 * time.Minute], in nanoseconds. *)
Definition idle : Z := 600000000000.

(** [t.Before(u)]. *)
Definition Before (t u : Z) : bool := t <? u.

(** [cleanup], run under the limiter's lock: every entry last seen before
    the cutoff is deleted from the map. *)
Definition cleanup (now : Z) (rl : limiter.RateLimiter) : limiter.RateLimiter :=
  let cutoff := now - idle in
  {| limiter.visitors :=
       filter (fun kv => Before (limiter.lastCheck (snd kv)) cutoff = false)
              (limiter.visitors rl);
     limiter.rate := limiter.rate rl;
     limiter.burst := limiter.burst rl |}.

End janitor.

(** *** The handlers (api/handlers.go), by the status code they answer *)

Module api.






End api.

(** *** Vocabulary of the further properties *)

(** The token a run of draws spells. *)
Definition token_of (raws : list Z) : string :=
  GoString.of_bytes (List.map (fun raw => charset_at (raw mod 62)) raws).

(** A byte that separates path elements, on either platform. *)
Definition is_separator (c : ascii) : bool :=
  Ascii.eqb c "/"%char || Ascii.eqb c "\"%char.

(** A name free of separators. *)
Definition flat (s : string) : Prop :=
  Forall (fun c => is_separator c = false) (GoString.bytes_of s).


(** No call of the blob store is refused. *)
Definition healthy_store (F : storage.Faults) : Prop :=
  forall id,
    storage.createFails F id = false /\ storage.writeFails F id = None /\
    storage.removeFails F id = false /\ storage.statFails F id = false.

(** The largest value of an [INTEGER] column. *)
Definition max_int32 : Z := 2147483647.

(** Steps 7 to 9 of [ProcessUpload], once the tokens are drawn and the
    archive is read and validated. *)
Definition persist (L : GoLib) (cfg : service.Config) (F : storage.Faults) (now : Z)
    (filename password uploadID deletionToken : string) (zipData : list byte)
    (originalSize : Z) : service.M service.UploadResult :=
  service.bind (service.storeSave F uploadID zipData) (fun storedBytes =>
  service.bind (service.hashPassword L F uploadID password) (fun passwordHash =>
  service.bind (service.liftO (sanitizeFilename filename)) (fun name =>
    let upload :=
      {| database.ID := uploadID;
         database.Filename := name;
         database.OriginalSize := originalSize;
         database.CompressedSize := storedBytes;
         database.FileHash := sha256_hex L zipData;
         database.UploadedAt := now;
         database.ExpiresAt := now + service.DefaultExpiry cfg;
         database.DownloadCount := 0;
         database.PasswordHash := passwordHash;
         database.DeletionToken := deletionToken;
         database.CreatedAt := now |} in
    service.bind (service.createRecord F upload) (fun _ =>
    service.ret
      {| service.res_ID := uploadID;
         service.res_DownloadURL := (service.BaseURL cfg ++ "/d/" ++ uploadID)%string;
         service.res_DeletionToken := deletionToken;
         service.res_ExpiresAt := database.ExpiresAt upload;
         service.res_Filename := database.Filename upload;
         service.res_Size := storedBytes |})))).

(** The record a successful upload stores. *)
Definition stored_record (L : GoLib) (cfg : service.Config) (now : Z)
    (password uploadID name deletionToken : string) (zipData : list byte)
    (originalSize : Z) : database.Upload :=
  {| database.ID := uploadID;
     database.Filename := name;
     database.OriginalSize := originalSize;
     database.CompressedSize := Z.of_nat (length zipData);
     database.FileHash := sha256_hex L zipData;
     database.UploadedAt := now;
     database.ExpiresAt := now + service.DefaultExpiry cfg;
     database.DownloadCount := 0;
     database.PasswordHash :=
       if String.eqb password EmptyString then None
       else bcrypt_GenerateFromPassword L password;
     database.DeletionToken := deletionToken;
     database.CreatedAt := now |}.

(** A world after the world of [Sample.fresh], with the source rewound: the
    next upload draws the id of the first one again. *)
Definition rewound (w : service.World) (n : nat) : service.World :=
  service.with_rand (service.rand (Sample.fresh n)) w.

(** The limiter in front of a stream of requests, each with the clock
    reading and the address it comes with: the verdict given to each, in
    order, with its address. The lock of [allow] makes the calls take
    turns. *)
Fixpoint serve (trace : list (Z * string)) (rl : limiter.RateLimiter)
  : list (string * bool) * limiter.RateLimiter :=
  match trace with
  | [] => ([], rl)
  | (now, ip) :: rest =>
      let '(ok, rl1) := limiter.allow now ip rl in
      let '(oks, rl2) := serve rest rl1 in
      ((ip, ok) :: oks, rl2)
  end.

(** The clock readings of the requests of one address, and the verdicts
    given to one address. *)
Definition times_of (ip : string) (trace : list (Z * string)) : list Z :=
  List.map fst (List.filter (fun req => String.eqb (snd req) ip) trace).
Definition verdicts_of (ip : string) (verdicts : list (string * bool)) : list bool :=
  List.map snd (List.filter (fun v => String.eqb (fst v) ip) verdicts).

(** * Properties *)

(** ** Secure token generator *)

Section Tokens.

Lemma charset_len : GoString.len charset = 62.
Proof. reflexivity. Qed.

Lemma charset_at_in (k : Z) :
  0 <= k < 62 -> In (charset_at k) (GoString.bytes_of charset).
Proof.
  intros Hk. unfold charset_at. apply nth_In.
  change (length (GoString.bytes_of charset)) with 62%nat. lia.
Qed.

Lemma rand_Int_range (max : Z) (src src' : entropy) (k : Z) :
  0 < max -> rand_Int max src = (Ok k, src') -> 0 <= k < max.
Proof.
  intros Hmax. unfold rand_Int.
  destruct src as [|[raw|] rest]; intros [= <- _].
  apply Z.mod_pos_bound. exact Hmax.
Qed.

Lemma fill_token_ok (n : nat) :
  forall src bs src',
    fill_token n src = (Ok bs, src') ->
    length bs = n /\ Forall (fun c => In c (GoString.bytes_of charset)) bs.
Proof.
  induction n as [|n IH]; intros src bs src'; simpl.
  - intros [= <- _]. split; [reflexivity | constructor].
  - destruct (rand_Int (GoString.len charset) src) as [[k|e] src1] eqn:Hr;
      [|discriminate].
    destruct (fill_token n src1) as [[rest|e] src2] eqn:Hf; [|discriminate].
    intros [= <- _].
    destruct (IH _ _ _ Hf) as [Hlen Hall].
    apply rand_Int_range in Hr; [|reflexivity].
    split; [simpl; congruence|].
    constructor; [apply charset_at_in; exact Hr | exact Hall].
Qed.

Lemma len_of_bytes (l : list ascii) :
  GoString.len (GoString.of_bytes l) = Z.of_nat (length l).
Proof.
  unfold GoString.len, GoString.of_bytes. f_equal.
  induction l as [|c l IH]; simpl; congruence.
Qed.

Lemma bytes_of_bytes (l : list ascii) :
  GoString.bytes_of (GoString.of_bytes l) = l.
Proof. apply list_ascii_of_string_of_list_ascii. Qed.

Lemma of_bytes_of (s : string) :
  GoString.of_bytes (GoString.bytes_of s) = s.
Proof. apply string_of_list_ascii_of_string. Qed.

Lemma len_bytes_of (s : string) :
  Z.of_nat (length (GoString.bytes_of s)) = GoString.len s.
Proof. rewrite <- (of_bytes_of s) at 2. symmetry. apply len_of_bytes. Qed.

Lemma generateSecureToken_ok (length : Z) (src src' : entropy) (s : string) :
  generateSecureToken length src = (Ret (Ok s), src') ->
  GoString.len s = length /\ over_charset s.
Proof.
  unfold generateSecureToken.
  destruct (length <? 0) eqn:Hneg; [discriminate|].
  apply Z.ltb_ge in Hneg.
  destruct (fill_token (Z.to_nat length) src) as [[bs|e] src1] eqn:Hf;
    intros [= <- _].
  destruct (fill_token_ok _ _ _ _ Hf) as [Hlen Hall].
  split.
  - rewrite len_of_bytes, Hlen. lia.
  - unfold over_charset. rewrite bytes_of_bytes. exact Hall.
Qed.

End Tokens.

(** ** Running [ProcessUpload] backwards *)

Section ProcessUploadRuns.

Import service.

(** What a successful run went through. *)
Lemma ProcessUpload_success L cfg F now filename data size password w r w' :
  ProcessUpload L cfg F now filename data size password w = (Ret (Ok r), w') ->
  exists uploadID token src1 src2 zipData originalSize storedBytes fs1,
    generateSecureToken 16 (rand w) = (Ret (Ok uploadID), src1) /\
    generateSecureToken 24 src1 = (Ret (Ok token), src2) /\
    data = Ok zipData /\
    Magic.validateZipMagicBytes zipData = None /\
    validateAndMeasureZip L zipData = Ok originalSize /\
    storage.Save F uploadID zipData (blobs w) = (Ok storedBytes, fs1) /\
    records w !! uploadID = None /\
    res_ID r = uploadID /\
    res_DeletionToken r = ("del_" ++ token)%string /\
    sanitizeFilename filename = Ret (res_Filename r) /\
    res_Size r = storedBytes /\
    res_ExpiresAt r = now + DefaultExpiry cfg /\
    blobs w' = fs1 /\
    (exists u, records w' = <[uploadID := u]> (records w) /\
               database.ID u = uploadID /\
               database.DeletionToken u = res_DeletionToken r /\
               database.Filename u = res_Filename r /\
               database.ExpiresAt u = res_ExpiresAt r).
Proof.
  unfold ProcessUpload. intros H.
  destruct (MaxFileSize cfg <? size); [discriminate|].
  unfold bind at 1 in H. unfold newToken at 1 in H.
  destruct (generateSecureToken 16 (rand w)) as [[[uploadID|e]|] src1] eqn:E1;
    try discriminate H.
  unfold bind at 1 in H. unfold newToken at 1 in H. simpl rand in H.
  destruct (generateSecureToken 24 src1) as [[[token|e]|] src2] eqn:E2;
    try discriminate H.
  unfold bind at 1 in H. unfold lift at 1 in H.
  destruct data as [zipData|e]; [|discriminate H].
  unfold bind at 1 in H. unfold check at 1 in H.
  destruct (Magic.validateZipMagicBytes zipData) eqn:E3; [discriminate H|].
  unfold bind at 1 in H. unfold lift at 1 in H.
  destruct (validateAndMeasureZip L zipData) as [originalSize|e] eqn:E4;
    [|discriminate H].
  unfold bind at 1 in H. unfold storeSave at 1 in H. simpl blobs in H.
  destruct (storage.Save F uploadID zipData (blobs w)) as [[storedBytes|e] fs1] eqn:E5;
    [|discriminate H].
  unfold bind at 1 in H. unfold hashPassword at 1 in H.
  assert (Hpw : exists ph,
    (let* name := liftO (sanitizeFilename filename) in
     let upload :=
       {| database.ID := uploadID; database.Filename := name;
          database.OriginalSize := originalSize;
          database.CompressedSize := storedBytes;
          database.FileHash := sha256_hex L zipData;
          database.UploadedAt := now;
          database.ExpiresAt := now + DefaultExpiry cfg;
          database.DownloadCount := 0; database.PasswordHash := ph;
          database.DeletionToken := ("del_" ++ token)%string;
          database.CreatedAt := now |} in
     let* _ := createRecord F upload in
     ret {| res_ID := uploadID;
            res_DownloadURL := (BaseURL cfg ++ "/d/" ++ uploadID)%string;
            res_DeletionToken := ("del_" ++ token)%string;
            res_ExpiresAt := database.ExpiresAt upload;
            res_Filename := database.Filename upload;
            res_Size := storedBytes |})
      (with_blobs fs1 (with_rand src2 (with_rand src1 w))) = (Ret (Ok r), w')).
  { destruct (String.eqb password EmptyString).
    - exists None. exact H.
    - destruct (bcrypt_GenerateFromPassword L password) as [h|].
      + exists (Some h). exact H.
      + discriminate H. }
  clear H. destruct Hpw as [ph H].
  unfold bind at 1 in H. unfold liftO at 1 in H.
  destruct (sanitizeFilename filename) as [name|] eqn:E6; [|discriminate H].
  cbv zeta in H. unfold bind at 1 in H. unfold createRecord at 1 in H.
  unfold database.Create in H. simpl in H.
  destruct (records w !! uploadID) eqn:E7; [discriminate H|].
  simpl in H. injection H as <- <-. simpl.
  exists uploadID, token, src1, src2, zipData, originalSize, storedBytes, fs1.
  repeat split; try reflexivity; try assumption.
  eexists. repeat split; reflexivity.
Qed.

Lemma scan_entries_error L files total e :
  scan_entries L files total = Err e -> e = ErrDangerousFile.
Proof.
  revert total. induction files as [|f rest IH]; intros total; cbn [scan_entries].
  - discriminate.
  - destruct (is_dangerous _); [intros [= <-]; reflexivity | apply IH].
Qed.

Lemma validateAndMeasureZip_error L data e :
  validateAndMeasureZip L data = Err e ->
  e = ErrInvalidZip \/ e = ErrDangerousFile.
Proof.
  unfold validateAndMeasureZip. destruct (zip_NewReader L data) as [files|].
  - intros H. right. eapply scan_entries_error, H.
  - intros [= <-]. left. reflexivity.
Qed.

Lemma validateZipMagicBytes_error data e :
  Magic.validateZipMagicBytes data = Some e -> e = ErrInvalidZip.
Proof.
  unfold Magic.validateZipMagicBytes.
  repeat match goal with |- context [if ?b then _ else _] => destruct b end;
    congruence.
Qed.

Lemma ProcessUpload_failure L cfg F now filename data size password w e w' :
  ProcessUpload L cfg F now filename data size password w = (Ret (Err e), w') ->
  records w' = records w /\ stopped F w w' e.
Proof.
  unfold ProcessUpload. intros H.
  destruct (MaxFileSize cfg <? size).
  { injection H as <- <-. split; [reflexivity|]. apply stop_early; auto. }
  unfold bind at 1 in H. unfold newToken at 1 in H.
  destruct (generateSecureToken 16 (rand w)) as [[[uploadID|e1]|] src1] eqn:E1;
    try discriminate H.
  2:{ injection H as <- <-. split; [reflexivity|]. apply stop_early; auto 6. }
  unfold bind at 1 in H. unfold newToken at 1 in H. simpl rand in H.
  destruct (generateSecureToken 24 src1) as [[[token|e2]|] src2] eqn:E2;
    try discriminate H.
  2:{ injection H as <- <-. split; [reflexivity|]. apply stop_early; auto 7. }
  unfold bind at 1 in H. unfold lift at 1 in H.
  destruct data as [zipData|e3].
  2:{ injection H as <- <-. split; [reflexivity|]. apply stop_early; auto 8. }
  unfold bind at 1 in H. unfold check at 1 in H.
  destruct (Magic.validateZipMagicBytes zipData) as [e4|] eqn:E4.
  { injection H as <- <-. apply validateZipMagicBytes_error in E4 as ->.
    split; [reflexivity|]. apply stop_early; auto. }
  unfold bind at 1 in H. unfold lift at 1 in H.
  destruct (validateAndMeasureZip L zipData) as [originalSize|e5] eqn:E5.
  2:{ injection H as <- <-. split; [reflexivity|].
      apply stop_early; [reflexivity|].
      destruct (validateAndMeasureZip_error _ _ _ E5) as [-> | ->]; auto. }
  unfold bind at 1 in H. unfold storeSave at 1 in H. simpl blobs in H.
  destruct (storage.Save F uploadID zipData (blobs w)) as [[storedBytes|e6] fs1] eqn:E6.
  2:{ injection H as <- <-. split; [reflexivity|].
      eapply stop_save. exact E6. }
  unfold bind at 1 in H. unfold hashPassword at 1 in H.
  set (w1 := with_blobs fs1 (with_rand src2 (with_rand src1 w))) in H.
  destruct (String.eqb password EmptyString) eqn:Epw;
    [|destruct (bcrypt_GenerateFromPassword L password) as [h|] eqn:Eh].
  3:{ (* hashing failed *)
      unfold bind, storeDelete_, fail in H. injection H as <- <-.
      split; [reflexivity|].
      eapply stop_late; [exact E6 | reflexivity | auto]. }
  all: unfold ret at 1 in H.
  all: unfold bind at 1 in H; unfold liftO at 1 in H.
  all: destruct (sanitizeFilename filename) as [name|] eqn:E7; [|discriminate H].
  all: cbv zeta in H; unfold bind at 1 in H; unfold createRecord at 1 in H.
  all: unfold database.Create in H; simpl in H.
  all: destruct (records w !! uploadID) eqn:E8; [|discriminate H].
  all: unfold bind, storeDelete_, fail in H; injection H as <- <-.
  all: split; [reflexivity|].
  all: eapply stop_late; [exact E6 | reflexivity | auto].
Qed.

End ProcessUploadRuns.

(** ** Claims about [ProcessUpload] and the token generator *)

Section UploadClaims.

Import service.

(** C8. A successful [generateSecureToken(length)] returns exactly [length]
    characters, each from the fixed alphabet of 62 characters; and every
    successful [ProcessUpload] returns an id of 16 characters over that
    alphabet and a deletion token that is ["del_"] followed by 24
    characters over that alphabet. *)
Theorem token_shape :
  GoString.len charset = 62 /\
  NoDup (GoString.bytes_of charset) /\
  (forall length src src' s,
      generateSecureToken length src = (Ret (Ok s), src') ->
      GoString.len s = length /\ over_charset s) /\
  (forall L cfg F now filename data size password w r w',
      ProcessUpload L cfg F now filename data size password w = (Ret (Ok r), w') ->
      (GoString.len (res_ID r) = 16 /\ over_charset (res_ID r)) /\
      exists t, res_DeletionToken r = ("del_" ++ t)%string /\
                GoString.len t = 24 /\ over_charset t).
Proof.
  split; [reflexivity|]. split.
  { apply NoDup_ListNoDup. vm_compute.
    repeat (constructor; [intros Hin; repeat (destruct Hin as [Hin|Hin];
                            [discriminate Hin|]); exact Hin|]).
    constructor. }
  split.
  - intros length src src' s H. eapply generateSecureToken_ok, H.
  - intros L cfg F now filename data size password w r w' H.
    apply ProcessUpload_success in H.
    destruct H as (uploadID & token & src1 & src2 & zipData & originalSize &
                   storedBytes & fs1 & H1 & H2 & _ & _ & _ & _ & _ & Hid & Htok & _).
    apply generateSecureToken_ok in H1, H2. rewrite Hid, Htok.
    split; [exact H1|]. exists token. split; [reflexivity | exact H2].
Qed.

(** A run of [ProcessUpload] that succeeds: an empty archive, no password. *)
Lemma token_shape_witness :
  exists r w',
    ProcessUpload (Sample.lib []) Sample.cfg Sample.healthy 1000
                  "C:\docs\notes.zip" (Ok Sample.empty_zip) 22 "" (Sample.fresh 40)
      = (Ret (Ok r), w') /\
    (GoString.len (res_ID r) = 16 /\ over_charset (res_ID r)) /\
    exists t, res_DeletionToken r = ("del_" ++ t)%string /\
              GoString.len t = 24 /\ over_charset t.
Proof.
  eexists _, _. split; [vm_compute; reflexivity|].
  refine (proj2 (proj2 (proj2 token_shape))
            (Sample.lib []) Sample.cfg Sample.healthy 1000 "C:\docs\notes.zip"
            (Ok Sample.empty_zip) 22 "" (Sample.fresh 40) _ _ _).
  vm_compute. reflexivity.
Defined.

(** C3. When [ProcessUpload] returns an error no record has been created.
    The size-limit, magic-byte and structural-scan failures leave the blob
    store as it was; a failure of password hashing or of record creation
    comes after the blob was saved, and [store.Delete] has been run on that
    blob before the error is returned, so that the blob is gone unless the
    store refused the removal. *)
Theorem upload_error_persists_nothing
    L cfg F now filename data size password w e w' :
  ProcessUpload L cfg F now filename data size password w = (Ret (Err e), w') ->
  records w' = records w /\
  (e = ErrFileTooLarge \/ e = ErrInvalidZip \/ e = ErrDangerousFile ->
   blobs w' = blobs w) /\
  (e = ErrInternal "failed to hash password" \/
   e = ErrInternal "failed to create upload record" ->
   exists uploadID zipData n fs1,
     storage.Save F uploadID zipData (blobs w) = (Ok n, fs1) /\
     blobs w' = snd (storage.Delete F uploadID fs1) /\
     (storage.removeFails F uploadID = false -> blobs w' !! uploadID = None)).
Proof.
  intros H. apply ProcessUpload_failure in H as [Hrec Hstop].
  split; [exact Hrec|]. split.
  - intros He. destruct Hstop as [e Hb _ | uploadID zipData e0 _
                                 | uploadID zipData n fs1 e _ _ Hlate].
    + exact Hb.
    + destruct He as [He|[He|He]]; discriminate He.
    + destruct Hlate as [-> | ->]; destruct He as [He|[He|He]]; discriminate He.
  - intros He. destruct Hstop as [e _ Hearly | uploadID zipData e0 _
                                 | uploadID zipData n fs1 e Hsave Hdel _].
    + destruct He as [-> | ->];
        repeat (destruct Hearly as [Hearly|Hearly]; [discriminate Hearly|]);
        discriminate Hearly.
    + destruct He as [He|He]; discriminate He.
    + exists uploadID, zipData, n, fs1. split; [exact Hsave|].
      split; [exact Hdel|]. intros Hrm. rewrite Hdel.
      unfold storage.Delete. rewrite Hrm. simpl. apply lookup_delete_eq.
Qed.

(** A run that fails at password hashing: the password has 73 bytes. *)
Lemma upload_error_persists_nothing_witness :
  exists e w',
    ProcessUpload (Sample.lib []) Sample.cfg Sample.healthy 1000 "notes.zip"
                  (Ok Sample.empty_zip) 22
                  (GoString.of_bytes (repeat "p"%char 73)) (Sample.fresh 40)
      = (Ret (Err e), w') /\
    e = ErrInternal "failed to hash password" /\
    records w' = records (Sample.fresh 40) /\
    blobs w' = ∅.
Proof.
  eexists _, _. split; [vm_compute; reflexivity|].
  split; [reflexivity|].
  split; [|reflexivity].
  refine (proj1 (upload_error_persists_nothing
                   (Sample.lib []) Sample.cfg Sample.healthy 1000 "notes.zip"
                   (Ok Sample.empty_zip) 22
                   (GoString.of_bytes (repeat "p"%char 73)) (Sample.fresh 40)
                   _ _ _)).
  vm_compute. reflexivity.
Defined.

End UploadClaims.

(** ** Archive validator *)

Section Validator.

Lemma byte_eqb_iff (a b : byte) : Byte.eqb a b = true <-> a = b.
Proof. split; [apply Byte.byte_dec_bl | apply Byte.byte_dec_lb]. Qed.

Lemma validateZipMagicBytes_short (data : list byte) :
  (length data < 4)%nat -> Magic.validateZipMagicBytes data = Some ErrInvalidZip.
Proof.
  intros Hlen. unfold Magic.validateZipMagicBytes.
  destruct (Z.ltb_spec (Z.of_nat (length data)) 4) as [_|Hge]; [reflexivity | lia].
Qed.

Lemma validateZipMagicBytes_four (a b c d : byte) (rest : list byte) :
  Magic.validateZipMagicBytes (a :: b :: c :: d :: rest) =
  if Byte.eqb a x50 && Byte.eqb b x4b
  then if (Byte.eqb c x03 && Byte.eqb d x04) || (Byte.eqb c x05 && Byte.eqb d x06)
       then None else Some ErrInvalidZip
  else Some ErrInvalidZip.
Proof.
  unfold Magic.validateZipMagicBytes.
  destruct (Z.ltb_spec (Z.of_nat (length (a :: b :: c :: d :: rest))) 4) as [Hlt|_].
  - simpl length in Hlt. lia.
  - reflexivity.
Qed.

Lemma begins_with_four (sig0 sig1 sig2 sig3 a b c d : byte) (rest : list byte) :
  Magic.begins_with [sig0; sig1; sig2; sig3] (a :: b :: c :: d :: rest) <->
  a = sig0 /\ b = sig1 /\ c = sig2 /\ d = sig3.
Proof.
  unfold Magic.begins_with. split.
  - intros [tl Heq]. simpl in Heq. injection Heq as -> -> -> -> _. auto.
  - intros (-> & -> & -> & ->). exists rest. reflexivity.
Qed.

Lemma begins_with_length (sig data : list byte) :
  Magic.begins_with sig data -> (length sig <= length data)%nat.
Proof.
  intros [tl ->]. rewrite List.length_app. lia.
Qed.

(** C7. The magic-byte check succeeds exactly on the buffers of at least
    four bytes that begin with 50 4B 03 04 or with 50 4B 05 06; on every
    other buffer it fails with the invalid-archive error. *)
Theorem magic_bytes_check (data : list byte) :
  (Magic.validateZipMagicBytes data = None <->
   4 <= Z.of_nat (length data) /\
   (Magic.begins_with Magic.local_file_header data \/
    Magic.begins_with Magic.empty_archive data)) /\
  (Magic.validateZipMagicBytes data = None \/
   Magic.validateZipMagicBytes data = Some ErrInvalidZip).
Proof.
  destruct data as [|a [|b [|c [|d rest]]]].
  1-4: rewrite validateZipMagicBytes_short by (simpl; lia).
  1-4: split; [split; [discriminate|] | right; reflexivity].
  1-4: intros [_ [Hb|Hb]]; apply begins_with_length in Hb; simpl in Hb; lia.
  rewrite validateZipMagicBytes_four.
  unfold Magic.local_file_header, Magic.empty_archive.
  rewrite !begins_with_four.
  split.
  - split.
    + intros H.
      split; [simpl length; lia|].
      destruct (Byte.eqb a x50 && Byte.eqb b x4b) eqn:Hab; [|discriminate].
      apply andb_true_iff in Hab as [Ha Hb].
      apply byte_eqb_iff in Ha, Hb.
      destruct ((Byte.eqb c x03 && Byte.eqb d x04) ||
                (Byte.eqb c x05 && Byte.eqb d x06)) eqn:Hcd; [|discriminate].
      apply orb_true_iff in Hcd as [Hcd|Hcd];
        apply andb_true_iff in Hcd as [Hc Hd];
        apply byte_eqb_iff in Hc, Hd; auto.
    + intros [_ [(-> & -> & -> & ->)|(-> & -> & -> & ->)]]; reflexivity.
  - destruct (Byte.eqb a x50 && Byte.eqb b x4b); [|right; reflexivity].
    destruct ((Byte.eqb c x03 && Byte.eqb d x04) ||
              (Byte.eqb c x05 && Byte.eqb d x06)); [left|right]; reflexivity.
Qed.


Lemma denylist_length : length denylist = 16%nat.
Proof. reflexivity. Qed.

Lemma wrap64_range (z : Z) : - 2 ^ 63 <= wrap64 z < 2 ^ 63.
Proof.
  unfold wrap64.
  pose proof (Z.mod_pos_bound (z + 2 ^ 63) (2 ^ 64) ltac:(lia)). lia.
Qed.










End Validator.

(** ** Filename sanitization *)

Section Sanitize.

Lemma len_append (a b : string) :
  GoString.len (a ++ b) = GoString.len a + GoString.len b.
Proof.
  unfold GoString.len. rewrite <- Nat2Z.inj_add. f_equal.
  induction a as [|c a IH]; [reflexivity|].
  change (String.length (String c a ++ b))
    with (S (String.length (a ++ b))).
  rewrite IH. reflexivity.
Qed.

Lemma len_nonneg (s : string) : 0 <= GoString.len s.
Proof. unfold GoString.len. lia. Qed.

Lemma slice_to_len (s p : string) (n : Z) :
  GoString.slice_to s n = Ret p -> GoString.len p = n.
Proof.
  unfold GoString.slice_to.
  destruct ((n <? 0) || (GoString.len s <? n)) eqn:Hb; [discriminate|].
  apply orb_false_iff in Hb as [Hn Hs].
  apply Z.ltb_ge in Hn, Hs. intros [= <-].
  rewrite len_of_bytes, List.length_firstn.
  pose proof (len_bytes_of s). lia.
Qed.

(** Whenever [sanitizeFilename] returns, the name has at most 255 bytes and
    is neither empty nor a bare dot. *)
Lemma sanitizeFilename_returns (name s : string) :
  sanitizeFilename name = Ret s ->
  GoString.len s <= 255 /\ s <> EmptyString /\ s <> "."%string.
Proof.
  unfold sanitizeFilename.
  set (b := GoString.Base _).
  assert (Hfin : forall n,
             GoString.len n <= 255 ->
             (if String.eqb n EmptyString || String.eqb n "."%string
              then Ret "upload.zip"%string else Ret n) = Ret s ->
             GoString.len s <= 255 /\ s <> EmptyString /\ s <> "."%string).
  { intros n Hn.
    destruct (String.eqb_spec n EmptyString) as [->|Hne]; simpl;
      [intros [= <-]; repeat split; discriminate|].
    destruct (String.eqb_spec n "."%string) as [->|Hnd]; simpl;
      [intros [= <-]; repeat split; discriminate|].
    intros [= <-]. repeat split; assumption. }
  destruct (255 <? GoString.len b) eqn:Hlong.
  - destruct (GoString.slice_to b (255 - GoString.len (GoString.Ext b)))
      as [p|] eqn:Hs; [|discriminate].
    apply Hfin. apply slice_to_len in Hs. rewrite len_append, Hs. lia.
  - apply Z.ltb_ge in Hlong. apply Hfin, Hlong.
Qed.

(** C9 fails on the code. A name of 256 bytes that is all extension (a dot
    followed by 255 letters) makes [name[:255-len(ext)]] a slice with a
    negative bound: [sanitizeFilename] panics and returns nothing. And a
    name made of separators only comes back as the separator. *)
Theorem sanitizeFilename_long_extension_panics :
  sanitizeFilename (String "."%char (GoString.of_bytes (repeat "a"%char 255))) = Panic /\
  sanitizeFilename "/" = Ret "/"%string /\
  sanitizeFilename "\" = Ret "/"%string.
Proof. repeat split; vm_compute; reflexivity. Qed.

End Sanitize.

(** ** Reading and deleting an upload *)

Section Access.

Import service.

Lemma After_spec (t u : Z) : After t u = true <-> u < t.
Proof. unfold After. apply Z.ltb_lt. Qed.

Lemma checkPassword_not_expired L u password :
  checkPassword L u password <> Some ErrExpired.
Proof.
  unfold checkPassword.
  destruct (database.PasswordHash u) as [h|]; [|discriminate].
  destruct (String.eqb password EmptyString); [discriminate|].
  destruct (bcrypt_CompareHashAndPassword L h password); discriminate.
Qed.

Lemma Download_rest_not_expired L F basePath id password u w :
  fst (Download_rest L F basePath id password u w) <> Err ErrExpired.
Proof.
  unfold Download_rest.
  pose proof (checkPassword_not_expired L u password) as Hp.
  destruct (checkPassword L u password) as [e|]; simpl.
  - intros [= ->]. apply Hp. reflexivity.
  - destruct (storage.GetPath F basePath id (blobs w)); simpl; discriminate.
Qed.

Lemma Download_unfold L F basePath now id password w u :
  records w !! id = Some u ->
  Download L F basePath now id password w =
  if After now (database.ExpiresAt u) then (Err ErrExpired, w)
  else Download_rest L F basePath id password u w.
Proof.
  intros Hu. unfold Download, Download_rest, database.GetByID. rewrite Hu.
  destruct (After now (database.ExpiresAt u)); [reflexivity|].
  destruct (checkPassword L u password); [reflexivity|].
  destruct (storage.GetPath F basePath id (blobs w)); [|reflexivity].
  destruct (database.IncrementDownloadCount id (records w)); reflexivity.
Qed.

(** After expiry both readers answer with the expired error. *)
Lemma expired_reads L F basePath now id password w u :
  records w !! id = Some u ->
  database.ExpiresAt u < now ->
  GetInfo now id w = Err ErrExpired /\
  fst (Download L F basePath now id password w) = Err ErrExpired.
Proof.
  intros Hu Hexp. apply After_spec in Hexp.
  rewrite (Download_unfold _ _ _ _ _ _ _ _ Hu).
  unfold GetInfo, database.GetByID. rewrite Hu, Hexp. split; reflexivity.
Qed.

(** C2, as amended. For a record in the store, [GetInfo] and [Download]
    return the expired error exactly when the current time is strictly
    after [expiresAt]; at [now <= expiresAt], the instant of expiry
    included, [GetInfo] returns the metadata and [Download] goes on to the
    password check. *)
Theorem expiry_gate L F basePath now id password w u :
  records w !! id = Some u ->
  (GetInfo now id w = Err ErrExpired <-> database.ExpiresAt u < now) /\
  (fst (Download L F basePath now id password w) = Err ErrExpired <->
   database.ExpiresAt u < now) /\
  (now <= database.ExpiresAt u ->
   (exists info, GetInfo now id w = Ok info /\ info_ID info = database.ID u) /\
   Download L F basePath now id password w =
   Download_rest L F basePath id password u w).
Proof.
  intros Hu. rewrite (Download_unfold _ _ _ _ _ _ _ _ Hu).
  unfold GetInfo, database.GetByID. rewrite Hu.
  destruct (After now (database.ExpiresAt u)) eqn:Ha.
  - apply After_spec in Ha. simpl. repeat split; auto; lia.
  - assert (Hle : now <= database.ExpiresAt u).
    { destruct (Z.lt_ge_cases (database.ExpiresAt u) now) as [Hlt|Hge];
        [apply After_spec in Hlt; congruence | exact Hge]. }
    split; [split; [discriminate | lia]|].
    split.
    + split; [|lia]. intros He. exfalso.
      eapply Download_rest_not_expired, He.
    + intros _. split; [|reflexivity]. eexists. split; reflexivity.
Qed.

Lemma expiry_gate_witness :
  GetInfo 1001 "f3Kx9" (Sample.one "f3Kx9" "del_t0k" 1000) = Err ErrExpired /\
  fst (Download (Sample.lib []) Sample.healthy "/srv/beam" 1001 "f3Kx9" ""
                (Sample.one "f3Kx9" "del_t0k" 1000)) = Err ErrExpired.
Proof.
  destruct (expiry_gate (Sample.lib []) Sample.healthy "/srv/beam" 1001
              "f3Kx9" "" (Sample.one "f3Kx9" "del_t0k" 1000)
              (Sample.upload "f3Kx9" "del_t0k" 1000))
    as (Hi & Hd & _); [vm_compute; reflexivity|].
  split; [apply Hi | apply Hd]; simpl; lia.
Defined.

(** C2 as stated fails at the instant of expiry: with [now = expiresAt] the
    record is still served. *)
Lemma expiry_gate_boundary :
  let w := Sample.one "f3Kx9" "del_t0k" 1000 in
  let u := Sample.upload "f3Kx9" "del_t0k" 1000 in
  records w !! "f3Kx9"%string = Some u /\
  database.ExpiresAt u <= 1000 /\
  GetInfo 1000 "f3Kx9" w <> Err ErrExpired /\
  fst (Download (Sample.lib []) Sample.healthy "/srv/beam" 1000 "f3Kx9" "" w)
    = Ok ("/srv/beam/f3Kx9.zip", "notes.zip")%string.
Proof.
  intros w u. split; [vm_compute; reflexivity|].
  split; [simpl; lia|].
  split; [vm_compute; discriminate | vm_compute; reflexivity].
Qed.

Lemma DeleteUpload_match F id w u :
  records w !! id = Some u ->
  DeleteUpload F id (database.DeletionToken u) w =
  (None, with_records (delete id (records w))
           (with_blobs (snd (storage.Delete F id (blobs w))) w)).
Proof.
  intros Hu. unfold DeleteUpload, database.GetByID. rewrite Hu.
  rewrite String.eqb_refl. simpl negb. cbv iota.
  destruct (storage.Delete F id (blobs w)) as [r fs]. simpl.
  unfold database.Delete. rewrite Hu. reflexivity.
Qed.

(** C4. For a stored record, [DeleteUpload] with another token than the
    stored one returns the invalid-token error and changes neither store;
    with the stored token it succeeds and removes the record, whatever the
    blob store answered: when the blob removal fails the blob stays and the
    record is removed all the same. *)
Theorem delete_token_gate F id token w u :
  records w !! id = Some u ->
  (token <> database.DeletionToken u ->
   DeleteUpload F id token w = (Some ErrInvalidToken, w)) /\
  (token = database.DeletionToken u ->
   exists w',
     DeleteUpload F id token w = (None, w') /\
     records w' = delete id (records w) /\
     records w' !! id = None /\
     blobs w' = snd (storage.Delete F id (blobs w)) /\
     (storage.removeFails F id = true -> blobs w' = blobs w)).
Proof.
  intros Hu. split.
  - intros Hne. unfold DeleteUpload, database.GetByID. rewrite Hu.
    destruct (String.eqb_spec (database.DeletionToken u) token) as [Heq|_];
      [congruence | reflexivity].
  - intros ->. eexists. split; [apply DeleteUpload_match, Hu|].
    simpl. split; [reflexivity|]. split; [apply lookup_delete_eq|].
    split; [reflexivity|].
    intros Hf. unfold storage.Delete. rewrite Hf. reflexivity.
Qed.

(** Deleting with the right token on a file system that removes nothing. *)
Lemma delete_token_gate_witness :
  let w := Sample.one "f3Kx9" "del_t0k" 1000 in
  DeleteUpload Sample.stuck "f3Kx9" "del_bad" w = (Some ErrInvalidToken, w) /\
  exists w',
    DeleteUpload Sample.stuck "f3Kx9" "del_t0k" w = (None, w') /\
    records w' !! "f3Kx9"%string = None /\
    blobs w' = blobs w.
Proof.
  intros w.
  destruct (delete_token_gate Sample.stuck "f3Kx9" "del_bad" w
              (Sample.upload "f3Kx9" "del_t0k" 1000)) as [Hbad _];
    [vm_compute; reflexivity|].
  destruct (delete_token_gate Sample.stuck "f3Kx9" "del_t0k" w
              (Sample.upload "f3Kx9" "del_t0k" 1000)) as [_ Hgood];
    [vm_compute; reflexivity|].
  split; [apply Hbad; discriminate|].
  destruct (Hgood eq_refl) as (w' & Hdel & _ & Hgone & _ & Hkept).
  exists w'. split; [exact Hdel|]. split; [exact Hgone | apply Hkept; reflexivity].
Defined.

(** C10. [DeleteUpload] has no expiry check: on a record that is still in
    the store with [expiresAt] in the past, [GetInfo] and [Download] return
    the expired error, and [DeleteUpload] with the stored token succeeds and
    removes the record. *)
Theorem delete_ignores_expiry L F basePath now id password w u :
  records w !! id = Some u ->
  database.ExpiresAt u < now ->
  GetInfo now id w = Err ErrExpired /\
  fst (Download L F basePath now id password w) = Err ErrExpired /\
  exists w',
    DeleteUpload F id (database.DeletionToken u) w = (None, w') /\
    records w' !! id = None /\
    GetInfo now id w' = Err ErrNotFound.
Proof.
  intros Hu Hexp.
  destruct (expired_reads L F basePath now id password w u Hu Hexp) as [Hi Hd].
  split; [exact Hi|]. split; [exact Hd|].
  eexists. split; [apply DeleteUpload_match, Hu|].
  assert (Hgone : delete id (records w) !! id = None) by apply lookup_delete_eq.
  split; [exact Hgone|].
  unfold GetInfo, database.GetByID. simpl. rewrite Hgone. reflexivity.
Qed.

Lemma delete_ignores_expiry_witness :
  let w := Sample.one "f3Kx9" "del_t0k" 1000 in
  GetInfo 5000 "f3Kx9" w = Err ErrExpired /\
  exists w',
    DeleteUpload Sample.healthy "f3Kx9" "del_t0k" w = (None, w') /\
    records w' !! "f3Kx9"%string = None.
Proof.
  intros w.
  destruct (delete_ignores_expiry (Sample.lib []) Sample.healthy "/srv/beam" 5000
              "f3Kx9" "" w (Sample.upload "f3Kx9" "del_t0k" 1000))
    as (Hi & _ & w' & Hdel & Hgone & _);
    [vm_compute; reflexivity | simpl; lia |].
  split; [exact Hi|]. exists w'. split; [exact Hdel | exact Hgone].
Defined.

End Access.

(** ** The reclamation cycle *)

Section Reclamation.

Import service.

Variable F : storage.Faults.

Lemma reclaimed_cons (u : database.Upload) (rest : list database.Upload) (id : string) :
  reclaimed F (u :: rest) id =
  (String.eqb (database.ID u) id && negb (storage.removeFails F id))
  || reclaimed F rest id.
Proof.
  unfold reclaimed. cbn [existsb].
  destruct (String.eqb (database.ID u) id), (existsb _ rest),
    (storage.removeFails F id); reflexivity.
Qed.

(** What a sweep leaves: the records and blobs of the reclaimed uploads are
    gone, everything else is as it was. *)
Lemma sweep_state (expired : list database.Upload) :
  forall acc w id,
    records (snd (cleanup.sweep F expired acc w)) !! id =
      (if reclaimed F expired id then None else records w !! id) /\
    blobs (snd (cleanup.sweep F expired acc w)) !! id =
      (if reclaimed F expired id then None else blobs w !! id).
Proof.
  induction expired as [|u rest IH]; intros acc w id.
  - split; reflexivity.
  - rewrite reclaimed_cons. cbn [cleanup.sweep]. unfold storage.Delete.
    destruct (storage.removeFails F (database.ID u)) eqn:Hf.
    + (* the blob stays, and so does the record *)
      destruct (IH {| cleanup.cleaned := cleanup.cleaned acc;
                      cleanup.failed := cleanup.failed acc + 1 |}
                   (with_blobs (blobs w) w) id) as [Hr Hb].
      rewrite Hr, Hb. simpl.
      destruct (String.eqb_spec (database.ID u) id) as [<-|_];
        [rewrite Hf|]; split; reflexivity.
    + (* the blob goes, then the record *)
      unfold database.Delete. simpl records.
      assert (Hgone : forall (t : database.table) k,
                 t !! database.ID u = None ->
                 t !! k = delete (database.ID u) t !! k).
      { intros t k Hn. rewrite lookup_delete.
        destruct (decide (database.ID u = k)) as [<-|_]; [exact Hn | reflexivity]. }
      destruct (records w !! database.ID u) eqn:Hu.
      * destruct (IH {| cleanup.cleaned := cleanup.cleaned acc + 1;
                        cleanup.failed := cleanup.failed acc |}
                     (with_records (delete (database.ID u) (records w))
                        (with_blobs (delete (database.ID u) (blobs w)) w)) id)
          as [Hr Hb].
        rewrite Hr, Hb. simpl. rewrite !lookup_delete.
        destruct (String.eqb_spec (database.ID u) id) as [<-|Hne].
        -- rewrite Hf. simpl. rewrite !decide_True by reflexivity.
           destruct (reclaimed F rest (database.ID u)); split; reflexivity.
        -- simpl. rewrite !decide_False by exact Hne. split; reflexivity.
      * destruct (IH {| cleanup.cleaned := cleanup.cleaned acc;
                        cleanup.failed := cleanup.failed acc + 1 |}
                     (with_records (records w)
                        (with_blobs (delete (database.ID u) (blobs w)) w)) id)
          as [Hr Hb].
        rewrite Hr, Hb. simpl. rewrite (Hgone _ id Hu), !lookup_delete.
        destruct (String.eqb_spec (database.ID u) id) as [<-|Hne].
        -- rewrite Hf. simpl. rewrite !decide_True by reflexivity.
           destruct (reclaimed F rest (database.ID u)); split; reflexivity.
        -- simpl. rewrite !decide_False by exact Hne. split; reflexivity.
Qed.

Lemma elem_of_GetExpired (now : Z) (t : database.table) (u : database.Upload) :
  u ∈ database.GetExpired now t <->
  (exists id, t !! id = Some u) /\ database.ExpiresAt u < now.
Proof.
  unfold database.GetExpired.
  rewrite list_elem_of_In, filter_In, <- list_elem_of_In, list_elem_of_fmap, Z.ltb_lt.
  split.
  - intros [[[id u'] [-> Hin]] Hexp]. apply elem_of_map_to_list in Hin.
    split; [exists id; exact Hin | exact Hexp].
  - intros [[id Hid] Hexp]. split; [|exact Hexp].
    exists (id, u). split; [reflexivity|]. apply elem_of_map_to_list, Hid.
Qed.





End Reclamation.

Section ReclamationRuns.

Import service.

Lemma table_wf_empty : table_wf ∅.
Proof. intros id u H. rewrite lookup_empty in H. discriminate H. Qed.

Lemma table_wf_insert (t : database.table) (u : database.Upload) :
  table_wf t -> table_wf (<[database.ID u := u]> t).
Proof.
  intros Hwf id u' H. rewrite lookup_insert in H.
  destruct (decide (database.ID u = id)) as [<-|_].
  - injection H as <-. reflexivity.
  - apply (Hwf _ _ H).
Qed.

(** [Create] keeps every row under its own id. *)
Lemma Create_wf (t : database.table) (u : database.Upload) :
  table_wf t -> table_wf (snd (database.Create u t)).
Proof.
  intros Hwf. unfold database.Create.
  destruct (t !! database.ID u); [exact Hwf | apply table_wf_insert, Hwf].
Qed.




End ReclamationRuns.

(** ** The admission limiter *)

Section Limiter.

Import limiter.

(** [allow] touches the entry of the address and nothing else, and the
    entry moves as [limiter_step] says. *)
Lemma allow_step (now : Z) (ip : string) (rl : RateLimiter) :
  allow now ip rl =
  (fst (limiter_step (rate rl) (burst rl) now (visitors rl !! ip)),
   with_visitor ip
     (snd (limiter_step (rate rl) (burst rl) now (visitors rl !! ip))) rl).
Proof.
  unfold allow, limiter_step, refill.
  destruct (visitors rl !! ip) as [v|]; [|reflexivity].
  cbv zeta.
  destruct (PrimFloat.ltb
              (if PrimFloat.ltb (float64_of_int (burst rl))
                    (PrimFloat.add (tokens v)
                       (PrimFloat.mul (Seconds (Sub now (lastCheck v))) (rate rl)))
               then float64_of_int (burst rl)
               else PrimFloat.add (tokens v)
                      (PrimFloat.mul (Seconds (Sub now (lastCheck v))) (rate rl)))
              1); reflexivity.
Qed.

Lemma requests_run (ip : string) (times : list Z) :
  forall rl,
    fst (requests ip times rl) =
    limiter_run (rate rl) (burst rl) times (visitors rl !! ip).
Proof.
  induction times as [|now rest IH]; intros rl; [reflexivity|].
  cbn [requests limiter_run]. rewrite allow_step.
  destruct (limiter_step (rate rl) (burst rl) now (visitors rl !! ip)) as [ok v].
  cbn [fst snd].
  specialize (IH (with_visitor ip v rl)).
  destruct (requests ip rest (with_visitor ip v rl)) as [oks rl2].
  cbn [fst] in *. rewrite IH. cbn [with_visitor visitors rate burst].
  rewrite lookup_insert_eq. reflexivity.
Qed.

Lemma Sub_shift (t u d : Z) : Sub (t + d) (u + d) = Sub t u.
Proof. unfold Sub. replace (t + d - (u + d)) with (t - u) by lia. reflexivity. Qed.

(** Only differences of clock readings matter. *)
Lemma limiter_step_shift (r : float) (b : Z) (now d : Z) (o : option visitor) :
  limiter_step r b (now + d) (limiter_shift d <$> o) =
  (fst (limiter_step r b now o), limiter_shift d (snd (limiter_step r b now o))).
Proof.
  destruct o as [[tk lc]|]; [|reflexivity].
  unfold limiter_shift.
  cbn [fmap option_fmap option_map limiter_step tokens lastCheck].
  rewrite Sub_shift.
  destruct (PrimFloat.ltb _ 1); reflexivity.
Qed.

Lemma limiter_run_shift (r : float) (b : Z) (d : Z) (times : list Z) :
  forall o,
    limiter_run r b (List.map (fun t => t + d) times) (limiter_shift d <$> o) =
    limiter_run r b times o.
Proof.
  induction times as [|now rest IH]; intros o; [reflexivity|].
  cbn [List.map limiter_run]. rewrite limiter_step_shift.
  destruct (limiter_step r b now o) as [ok v]. cbn [fst snd].
  f_equal. apply (IH (Some v)).
Qed.

Lemma repeat_shift (t0 : Z) (n : nat) (k : Z) :
  repeat (k + t0) n = List.map (fun t => t + t0) (repeat k n).
Proof. induction n as [|n IH]; [reflexivity|]. simpl. rewrite IH. reflexivity. Qed.



(** After the burst, one second later: ten more requests pass and the
    eleventh does not. *)
Lemma allow_after_one_second (ip : string) (t0 : Z) :
  fst (requests ip (repeat t0 21 ++ repeat (1000000000 + t0) 11)
         (NewRateLimiter 10 20)) =
  repeat true 20 ++ [false] ++ repeat true 10 ++ [false].
Proof.
  rewrite requests_run.
  cbn [NewRateLimiter rate burst visitors]. rewrite lookup_empty.
  change t0 with (0 + t0) at 1. rewrite !repeat_shift, <- List.map_app.
  change (@None visitor) with (limiter_shift t0 <$> @None visitor).
  rewrite limiter_run_shift. vm_compute. reflexivity.
Qed.

(** The same burst with the requests a microsecond apart: the refill of
    twenty microseconds is far from a whole token. *)
Lemma allow_burst_microseconds (ip : string) (t0 : Z) :
  fst (requests ip (List.map (fun k => Z.of_nat k * 1000 + t0) (seq 0 21))
         (NewRateLimiter 10 20)) =
  repeat true 20 ++ [false].
Proof.
  rewrite requests_run.
  cbn [NewRateLimiter rate burst visitors]. rewrite lookup_empty.
  rewrite <- (List.map_map (fun k => Z.of_nat k * 1000) (fun t => t + t0)).
  change (@None visitor) with (limiter_shift t0 <$> @None visitor).
  rewrite limiter_run_shift. vm_compute. reflexivity.
Qed.

End Limiter.

(** * Further properties *)

(** ** The token generator, read both ways *)

Section TokenRuns.

Lemma charset_ListNoDup : List.NoDup (GoString.bytes_of charset).
Proof.
  vm_compute.
  repeat (constructor; [intros Hin; repeat (destruct Hin as [Hin|Hin];
                          [discriminate Hin|]); exact Hin|]).
  constructor.
Qed.

Lemma charset_at_inj (j k : Z) :
  0 <= j < 62 -> 0 <= k < 62 -> charset_at j = charset_at k -> j = k.
Proof.
  intros Hj Hk Heq. unfold charset_at in Heq.
  pose proof (proj1 (List.NoDup_nth (GoString.bytes_of charset) "000"%char)
                charset_ListNoDup (Z.to_nat j) (Z.to_nat k)) as Hinj.
  change (length (GoString.bytes_of charset)) with 62%nat in Hinj.
  specialize (Hinj ltac:(lia) ltac:(lia) Heq). lia.
Qed.

(** The loop succeeds exactly on a source that starts with as many good
    reads as there are characters to draw, and uses up just those. *)
Lemma fill_token_iff (n : nat) :
  forall src bs src',
    fill_token n src = (Ok bs, src') <->
    exists raws,
      length raws = n /\ src = List.map Some raws ++ src' /\
      bs = List.map (fun raw => charset_at (raw mod 62)) raws.
Proof.
  induction n as [|n IH]; intros src bs src'; cbn [fill_token].
  - split.
    + intros [= <- <-]. exists []. repeat split.
    + intros (raws & Hlen & -> & ->).
      destruct raws; [reflexivity | discriminate Hlen].
  - change (GoString.len charset) with 62. split.
    + destruct src as [|[raw|] src1]; cbn [rand_Int]; try discriminate.
      destruct (fill_token n src1) as [[rest|e] src2] eqn:Hf; [|discriminate].
      intros [= <- <-]. apply IH in Hf as (raws & Hlen & -> & ->).
      exists (raw :: raws). cbn [length List.map app].
      repeat split; congruence.
    + intros (raws & Hlen & -> & ->).
      destruct raws as [|raw raws]; [discriminate Hlen|].
      cbn [List.map app rand_Int].
      assert (Hf : fill_token n (List.map Some raws ++ src') =
                   (Ok (List.map (fun raw => charset_at (raw mod 62)) raws), src')).
      { apply IH. exists raws. repeat split. simpl in Hlen. lia. }
      rewrite Hf. reflexivity.
Qed.

(** X1. [generateSecureToken(length)] returns a token exactly when [length]
    is not negative and the source delivers [length] values in a row; it
    then consumes those values and no more, and the token spells them. *)
Theorem generateSecureToken_iff (length : Z) (src src' : entropy) (s : string) :
  generateSecureToken length src = (Ret (Ok s), src') <->
  0 <= length /\
  exists raws,
    Z.of_nat (List.length raws) = length /\
    src = List.map Some raws ++ src' /\
    s = token_of raws.
Proof.
  unfold generateSecureToken. split.
  - destruct (Z.ltb_spec length 0) as [Hneg|Hpos]; [discriminate|].
    destruct (fill_token (Z.to_nat length) src) as [[bs|e] src1] eqn:Hf;
      [|discriminate].
    intros [= <- <-]. apply fill_token_iff in Hf as (raws & Hlen & -> & ->).
    split; [exact Hpos|]. exists raws. repeat split. lia.
  - intros (Hpos & raws & Hlen & -> & ->).
    destruct (Z.ltb_spec length 0) as [Hneg|_]; [lia|].
    assert (Hf : fill_token (Z.to_nat length) (List.map Some raws ++ src') =
                 (Ok (List.map (fun raw => charset_at (raw mod 62)) raws), src')).
    { apply fill_token_iff. exists raws. repeat split. lia. }
    rewrite Hf. reflexivity.
Qed.

(** X2. A failed read among the first [length] ones, or a source that runs
    dry before them, makes [generateSecureToken] return an error: it never
    returns a shorter token. *)
Theorem generateSecureToken_short_source (length : Z) (src : entropy) :
  0 <= length ->
  (exists i, (i < Z.to_nat length)%nat /\ nth i src None = None) ->
  exists e src', generateSecureToken length src = (Ret (Err e), src').
Proof.
  intros Hpos (i & Hi & Hbad). unfold generateSecureToken.
  destruct (Z.ltb_spec length 0) as [Hneg|_]; [lia|].
  destruct (fill_token (Z.to_nat length) src) as [[bs|e] src1] eqn:Hf.
  - exfalso. apply fill_token_iff in Hf as (raws & Hlen & -> & _).
    rewrite List.app_nth1 in Hbad by (rewrite List.length_map; lia).
    rewrite (List.nth_indep _ None (Some 0)) in Hbad
      by (rewrite List.length_map; lia).
    rewrite (List.map_nth Some raws 0 i) in Hbad. discriminate Hbad.
  - eexists _, _. reflexivity.
Qed.

Lemma generateSecureToken_short_source_witness :
  exists e src',
    generateSecureToken 3 [Some 5; None; Some 7] = (Ret (Err e), src').
Proof.
  apply generateSecureToken_short_source; [lia|].
  exists 1%nat. split; [simpl; lia | reflexivity].
Defined.

(** X3. A token determines the values it was drawn from: two runs of draws
    spell the same token only if they are as long and agree, draw by draw,
    on the index into the alphabet. *)
Theorem token_of_injective (raws1 raws2 : list Z) :
  token_of raws1 = token_of raws2 ->
  List.map (fun raw => raw mod 62) raws1 = List.map (fun raw => raw mod 62) raws2.
Proof.
  unfold token_of. intros Heq.
  apply (f_equal GoString.bytes_of) in Heq. rewrite !bytes_of_bytes in Heq.
  revert raws2 Heq. induction raws1 as [|a l1 IH]; intros [|b l2] Heq;
    try discriminate Heq; [reflexivity|].
  cbn [List.map] in *. injection Heq as Hhd Htl.
  f_equal; [|apply IH, Htl].
  apply charset_at_inj; [apply Z.mod_pos_bound; lia .. | exact Hhd].
Qed.

Lemma token_of_injective_witness :
  List.map (fun raw => raw mod 62) [1; 63] = List.map (fun raw => raw mod 62) [63; 1].
Proof. apply token_of_injective. reflexivity. Defined.

End TokenRuns.

(** ** What [sanitizeFilename] returns *)

Section SanitizeMore.

Lemma bytes_of_append (a b : string) :
  GoString.bytes_of (a ++ b) = GoString.bytes_of a ++ GoString.bytes_of b.
Proof.
  unfold GoString.bytes_of. induction a as [|c a IH]; [reflexivity|].
  change (String c a ++ b)%string with (String c (a ++ b)).
  cbn [list_ascii_of_string app]. rewrite IH. reflexivity.
Qed.

Lemma last_element_sub (P : ascii -> Prop) (r : list ascii) :
  Forall P r -> Forall P (GoString.last_element r).
Proof.
  induction 1 as [|c r Hc _ IH]; cbn [GoString.last_element]; [constructor|].
  destruct (GoString.IsPathSeparator c); constructor; assumption.
Qed.

Lemma last_element_no_slash (r : list ascii) :
  Forall (fun c => GoString.IsPathSeparator c = false) (GoString.last_element r).
Proof.
  induction r as [|c r IH]; cbn [GoString.last_element]; [constructor|].
  destruct (GoString.IsPathSeparator c) eqn:Hc; constructor; assumption.
Qed.

Lemma strip_slashes_sub (P : ascii -> Prop) (r : list ascii) :
  Forall P r -> Forall P (GoString.strip_slashes r).
Proof.
  induction 1 as [|c r Hc Hr IH]; cbn [GoString.strip_slashes]; [constructor|].
  destruct (GoString.IsPathSeparator c); [exact IH | constructor; assumption].
Qed.

Lemma ext_scan_sub (P : ascii -> Prop) (r : list ascii) :
  forall acc, Forall P r -> Forall P acc -> Forall P (GoString.ext_scan r acc).
Proof.
  induction r as [|c r IH]; intros acc Hr Hacc; cbn [GoString.ext_scan];
    [constructor|].
  apply Forall_cons in Hr as [Hc Hr].
  destruct (GoString.IsPathSeparator c); [constructor|].
  destruct (Ascii.eqb c "."%char).
  - constructor; assumption.
  - apply IH; [exact Hr | constructor; assumption].
Qed.

Lemma Forall_rev_iff {A} (P : A -> Prop) (l : list A) :
  Forall P (rev l) <-> Forall P l.
Proof.
  rewrite !List.Forall_forall. split; intros H x Hx; apply H.
  - apply List.in_rev in Hx. exact Hx.
  - apply List.in_rev. exact Hx.
Qed.

Lemma is_separator_split (c : ascii) :
  is_separator c = false <->
  GoString.IsPathSeparator c = false /\ Ascii.eqb c "\"%char = false.
Proof. unfold is_separator, GoString.IsPathSeparator. apply orb_false_iff. Qed.

(** After the backslashes are replaced none is left. *)
Lemma ReplaceAll_no_backslash (s : string) :
  Forall (fun c => Ascii.eqb c "\"%char = false)
         (GoString.bytes_of (GoString.ReplaceAll s "\"%char "/"%char)).
Proof.
  unfold GoString.ReplaceAll. rewrite bytes_of_bytes.
  induction (GoString.bytes_of s) as [|c l IH]; cbn [List.map]; constructor;
    [|exact IH].
  destruct (Ascii.eqb c "\"%char) eqn:Hc; [reflexivity | exact Hc].
Qed.

(** [filepath.Base] is the separator itself or has no separator in it. *)
Lemma Base_flat (p : string) :
  Forall (fun c => Ascii.eqb c "\"%char = false) (GoString.bytes_of p) ->
  GoString.Base p = "/"%string \/ flat (GoString.Base p).
Proof.
  intros Hp. unfold GoString.Base.
  destruct (String.eqb p EmptyString).
  { right. repeat constructor. }
  set (e := GoString.last_element
              (GoString.strip_slashes (rev (GoString.bytes_of p)))).
  assert (He : Forall (fun c => is_separator c = false) e).
  { assert (H1 : Forall (fun c => GoString.IsPathSeparator c = false) e)
      by apply last_element_no_slash.
    assert (H2 : Forall (fun c => Ascii.eqb c "\"%char = false) e).
    { apply last_element_sub, strip_slashes_sub, Forall_rev_iff, Hp. }
    rewrite List.Forall_forall in *. intros c Hc.
    apply is_separator_split. split; [apply H1 | apply H2]; exact Hc. }
  destruct (rev e) as [|c l] eqn:Hrev; [left; reflexivity|].
  right. unfold flat. rewrite bytes_of_bytes, <- Hrev.
  apply Forall_rev_iff, He.
Qed.

(** The three ways [sanitizeFilename] comes to its result, [b] being the
    base name of the input. *)
Lemma sanitizeFilename_cases (name s : string) :
  sanitizeFilename name = Ret s ->
  let b := GoString.Base (GoString.ReplaceAll name "\"%char "/"%char) in
  (s = "upload.zip"%string /\ GoString.len b <= 255) \/
  (s = b /\ GoString.len b <= 255) \/
  (255 < GoString.len b /\
   exists p, GoString.slice_to b (255 - GoString.len (GoString.Ext b)) = Ret p /\
             s = (p ++ GoString.Ext b)%string).
Proof.
  intros H. cbv zeta. set (b := GoString.Base _).
  unfold sanitizeFilename in H. cbv zeta in H. fold b in H.
  destruct (Z.ltb_spec 255 (GoString.len b)) as [Hlong|Hshort].
  - destruct (GoString.slice_to b (255 - GoString.len (GoString.Ext b)))
      as [p|] eqn:Hs; [|discriminate H].
    right. right. split; [exact Hlong|]. exists p. split; [reflexivity|].
    pose proof (slice_to_len _ _ _ Hs) as Hp.
    destruct (String.eqb_spec (p ++ GoString.Ext b) EmptyString) as [He|_].
    { exfalso. apply (f_equal GoString.len) in He. rewrite len_append in He.
      change (GoString.len "") with 0 in He. lia. }
    destruct (String.eqb_spec (p ++ GoString.Ext b) "."%string) as [He|_].
    { exfalso. apply (f_equal GoString.len) in He. rewrite len_append in He.
      change (GoString.len ".") with 1 in He. lia. }
    simpl in H. injection H as <-. reflexivity.
  - destruct (String.eqb b EmptyString || String.eqb b "."%string).
    + left. injection H as <-. split; [reflexivity | exact Hshort].
    + right. left. injection H as <-. split; [reflexivity | exact Hshort].
Qed.

Lemma slice_to_prefix (s p : string) (n : Z) :
  GoString.slice_to s n = Ret p ->
  GoString.bytes_of p = firstn (Z.to_nat n) (GoString.bytes_of s).
Proof.
  unfold GoString.slice_to. destruct (_ || _); [discriminate|].
  intros [= <-]. apply bytes_of_bytes.
Qed.

Lemma Forall_firstn {A} (P : A -> Prop) (n : nat) (l : list A) :
  Forall P l -> Forall P (firstn n l).
Proof.
  intros H. revert n. induction H as [|x l Hx _ IH]; intros [|n];
    cbn [firstn]; constructor; auto.
Qed.

Lemma sanitizeFilename_root_or_flat (name s : string) :
  sanitizeFilename name = Ret s -> s = "/"%string \/ flat s.
Proof.
  intros H. apply sanitizeFilename_cases in H. cbv zeta in H.
  set (b := GoString.Base _) in H.
  pose proof (Base_flat _ (ReplaceAll_no_backslash name)) as Hb. fold b in Hb.
  destruct H as [[-> _] | [[-> _] | (Hlong & p & Hs & ->)]].
  - right. vm_compute. repeat constructor.
  - exact Hb.
  - right. destruct Hb as [Hb|Hb].
    { rewrite Hb in Hlong. vm_compute in Hlong. discriminate Hlong. }
    unfold flat. rewrite bytes_of_append. apply Forall_app. split.
    + rewrite (slice_to_prefix _ _ _ Hs). apply Forall_firstn, Hb.
    + unfold GoString.Ext. rewrite bytes_of_bytes.
      apply ext_scan_sub; [apply Forall_rev_iff, Hb | constructor].
Qed.

(** X4. A name that [sanitizeFilename] returns is the separator ["/"] (for
    an input made of separators only) or contains neither a slash nor a
    backslash: no directory part survives. *)
Theorem sanitizeFilename_flat (name s : string) :
  sanitizeFilename name = Ret s -> s = "/"%string \/ flat s.
Proof. apply sanitizeFilename_root_or_flat. Qed.

Lemma sanitizeFilename_flat_witness :
  "report.final.pdf"%string = "/"%string \/ flat "report.final.pdf".
Proof.
  apply (sanitizeFilename_flat "C:\Users\ann\..\report.final.pdf").
  vm_compute. reflexivity.
Defined.

End SanitizeMore.

Section SanitizeCompose.

Lemma ReplaceAll_flat (s : string) :
  flat s -> GoString.ReplaceAll s "\"%char "/"%char = s.
Proof.
  unfold flat, GoString.ReplaceAll. intros H.
  rewrite <- (of_bytes_of s) at 2. f_equal.
  induction H as [|c l Hc _ IH]; [reflexivity|]. cbn [List.map].
  apply is_separator_split in Hc as [_ Hc]. rewrite Hc, IH. reflexivity.
Qed.

Lemma strip_slashes_id (r : list ascii) :
  Forall (fun c => GoString.IsPathSeparator c = false) r ->
  GoString.strip_slashes r = r.
Proof.
  intros [|c l Hc _]; [reflexivity|]. cbn [GoString.strip_slashes].
  rewrite Hc. reflexivity.
Qed.

Lemma last_element_id (r : list ascii) :
  Forall (fun c => GoString.IsPathSeparator c = false) r ->
  GoString.last_element r = r.
Proof.
  induction 1 as [|c l Hc _ IH]; [reflexivity|]. cbn [GoString.last_element].
  rewrite Hc, IH. reflexivity.
Qed.

Lemma flat_no_slash (s : string) :
  flat s ->
  Forall (fun c => GoString.IsPathSeparator c = false) (GoString.bytes_of s).
Proof.
  unfold flat. intros H. eapply Forall_impl; [exact H|]. intros c Hc.
  apply is_separator_split in Hc as [Hc _]. exact Hc.
Qed.

(** The base name of a name without separators is the name. *)
Lemma Base_of_flat (s : string) :
  flat s -> s <> EmptyString -> GoString.Base s = s.
Proof.
  intros Hflat Hne. unfold GoString.Base.
  destruct (String.eqb_spec s EmptyString) as [He|_]; [contradiction|].
  apply flat_no_slash, Forall_rev_iff in Hflat.
  rewrite strip_slashes_id, last_element_id, List.rev_involutive by exact Hflat.
  destruct (GoString.bytes_of s) as [|c l] eqn:Hb.
  - exfalso. apply Hne. rewrite <- (of_bytes_of s), Hb. reflexivity.
  - rewrite <- Hb. apply of_bytes_of.
Qed.

(** X5. [sanitizeFilename] is idempotent: a name it returned comes back
    unchanged when it is sanitized again. *)
Theorem sanitizeFilename_idempotent (name s : string) :
  sanitizeFilename name = Ret s -> sanitizeFilename s = Ret s.
Proof.
  intros H.
  destruct (sanitizeFilename_returns _ _ H) as (Hlen & Hne & Hnd).
  destruct (sanitizeFilename_root_or_flat _ _ H) as [->|Hflat]; [reflexivity|].
  unfold sanitizeFilename.
  rewrite (ReplaceAll_flat _ Hflat), (Base_of_flat _ Hflat Hne).
  destruct (Z.ltb_spec 255 (GoString.len s)) as [Hlong|_]; [lia|].
  destruct (String.eqb_spec s EmptyString) as [He|_]; [contradiction|].
  destruct (String.eqb_spec s "."%string) as [He|_]; [contradiction|].
  reflexivity.
Qed.

Lemma sanitizeFilename_idempotent_witness :
  sanitizeFilename "notes.tar.gz" = Ret "notes.tar.gz"%string.
Proof.
  apply (sanitizeFilename_idempotent "/home/ann/notes.tar.gz").
  vm_compute. reflexivity.
Defined.

(** Bytes that the scan of [filepath.Ext] walks over: neither a separator
    nor a dot. *)
Lemma ext_scan_pass (pre r : list ascii) :
  forall acc,
    Forall (fun c => GoString.IsPathSeparator c = false /\
                     Ascii.eqb c "."%char = false) pre ->
    GoString.ext_scan (pre ++ r) acc = GoString.ext_scan r (rev pre ++ acc).
Proof.
  induction pre as [|c pre IH]; intros acc Hpre; [reflexivity|].
  apply Forall_cons in Hpre as [[Hs Hd] Hpre].
  cbn [app GoString.ext_scan rev]. rewrite Hs, Hd, IH by exact Hpre.
  rewrite <- List.app_assoc. reflexivity.
Qed.

(** In a path element the scan finds nothing, and then there is no dot, or
    stops at the last dot. *)
Lemma ext_scan_shape (r : list ascii) :
  forall acc,
    Forall (fun c => GoString.IsPathSeparator c = false) r ->
    (GoString.ext_scan r acc = [] /\
     Forall (fun c => GoString.IsPathSeparator c = false /\
                      Ascii.eqb c "."%char = false) r) \/
    (exists pre post,
        r = pre ++ "."%char :: post /\
        Forall (fun c => GoString.IsPathSeparator c = false /\
                         Ascii.eqb c "."%char = false) pre /\
        GoString.ext_scan r acc = "."%char :: rev pre ++ acc).
Proof.
  induction r as [|c r IH]; intros acc Hr.
  - left. split; [reflexivity | constructor].
  - apply Forall_cons in Hr as [Hc Hr]. cbn [GoString.ext_scan]. rewrite Hc.
    destruct (Ascii.eqb_spec c "."%char) as [->|Hd].
    + right. exists [], r. repeat split. constructor.
    + assert (Hd' : Ascii.eqb c "."%char = false)
        by (apply Ascii.eqb_neq; exact Hd).
      destruct (IH (c :: acc) Hr) as [[Hnil Hall] | (pre & post & -> & Hpre & Hscan)].
      * left. split; [exact Hnil | constructor; auto].
      * right. exists (c :: pre), post. split; [reflexivity|].
        split; [constructor; auto|].
        rewrite Hscan. cbn [rev]. rewrite <- List.app_assoc. reflexivity.
Qed.

(** X6. When the base name is longer than 255 bytes and [sanitizeFilename]
    returns, the result has exactly 255 bytes, keeps the extension of the
    base name, and is that extension after the first bytes of the base
    name. *)
Theorem sanitizeFilename_truncates (name s : string) :
  sanitizeFilename name = Ret s ->
  let b := GoString.Base (GoString.ReplaceAll name "\"%char "/"%char) in
  255 < GoString.len b ->
  GoString.len s = 255 /\
  GoString.Ext s = GoString.Ext b /\
  exists p,
    s = (p ++ GoString.Ext b)%string /\
    GoString.bytes_of p =
    firstn (Z.to_nat (255 - GoString.len (GoString.Ext b))) (GoString.bytes_of b).
Proof.
  intros H b Hlong. subst b.
  pose proof (sanitizeFilename_cases _ _ H) as Hc. cbv zeta in Hc.
  pose proof (Base_flat _ (ReplaceAll_no_backslash name)) as Hb.
  set (b := GoString.Base _) in *.
  destruct Hc as [[_ Hshort] | [[_ Hshort] | (_ & p & Hs & ->)]]; [lia | lia |].
  destruct Hb as [Hb|Hb].
  { rewrite Hb in Hlong. vm_compute in Hlong. discriminate Hlong. }
  pose proof (slice_to_len _ _ _ Hs) as Hplen.
  pose proof (slice_to_prefix _ _ _ Hs) as Hpre.
  split; [rewrite len_append; lia|].
  split; [|exists p; split; [reflexivity | exact Hpre]].
  unfold GoString.Ext at 1. rewrite bytes_of_append.
  apply flat_no_slash in Hb.
  assert (Hp : Forall (fun c => GoString.IsPathSeparator c = false)
                      (GoString.bytes_of p))
    by (rewrite Hpre; apply Forall_firstn, Hb).
  apply Forall_rev_iff in Hb.
  unfold GoString.Ext at 1 2. rewrite bytes_of_bytes. f_equal.
  destruct (ext_scan_shape _ [] Hb) as [[Hnil Hall] | (pre & post & Hr & Hpre' & Hscan)].
  - rewrite Hnil, List.app_nil_r.
    rewrite <- (List.app_nil_r (rev (GoString.bytes_of p))).
    rewrite ext_scan_pass; [reflexivity|].
    apply Forall_rev_iff. rewrite Hpre. apply Forall_firstn.
    apply Forall_rev_iff, Hall.
  - rewrite Hscan, List.app_nil_r.
    rewrite List.rev_app_distr. cbn [rev].
    rewrite List.rev_involutive, <- List.app_assoc. cbn [app].
    rewrite ext_scan_pass by exact Hpre'. cbn [GoString.ext_scan].
    change (GoString.IsPathSeparator "."%char) with false.
    change (Ascii.eqb "."%char "."%char) with true. cbv iota.
    rewrite List.app_nil_r. reflexivity.
Qed.

Lemma sanitizeFilename_truncates_witness :
  let name := (GoString.of_bytes (repeat "a"%char 300) ++ ".zip")%string in
  exists s,
    sanitizeFilename name = Ret s /\
    GoString.len s = 255 /\ GoString.Ext s = ".zip"%string.
Proof.
  intros name.
  exists (GoString.of_bytes (repeat "a"%char 251) ++ ".zip")%string.
  split; [vm_compute; reflexivity|].
  destruct (sanitizeFilename_truncates name
              (GoString.of_bytes (repeat "a"%char 251) ++ ".zip")%string)
    as (Hlen & Hext & _); [vm_compute; reflexivity .. |].
  split; [exact Hlen|]. rewrite Hext. vm_compute. reflexivity.
Defined.

End SanitizeCompose.

(** ** The blob store on its own *)

Section BlobStore.

Variable F : storage.Faults.




End BlobStore.

Section BlobStoreRuns.




End BlobStoreRuns.

(** ** The record store on its own *)

Section RecordStore.

Lemma rows_In (t : database.table) (u : database.Upload) :
  In u (stats.rows t) <-> exists id, t !! id = Some u.
Proof.
  unfold stats.rows. rewrite <- list_elem_of_In, list_elem_of_fmap. split.
  - intros [[id u'] [-> Hin]]. exists id. apply elem_of_map_to_list, Hin.
  - intros [id Hid]. exists (id, u). split; [reflexivity|].
    apply elem_of_map_to_list, Hid.
Qed.

(** X10. The duplicate lookup returns only a stored record with the hash
    asked for that has not expired, one that [GetExpired] does not list; and
    it returns none exactly when every stored record with that hash has
    [expires_at <= now]. *)
Theorem GetByHash_spec (hash : string) (now : Z) (t : database.table) :
  (forall u,
      database.GetByHash hash now t = Some u ->
      (exists id, t !! id = Some u) /\
      database.FileHash u = hash /\
      now < database.ExpiresAt u /\
      ~ In u (database.GetExpired now t)) /\
  (database.GetByHash hash now t = None <->
   forall id u, t !! id = Some u -> database.FileHash u = hash ->
                database.ExpiresAt u <= now).
Proof.
  unfold database.GetByHash. fold (stats.rows t). split.
  - intros u Hfind. apply List.find_some in Hfind as [Hin Hp].
    apply andb_true_iff in Hp as [Hh He].
    apply String.eqb_eq in Hh. apply Z.ltb_lt in He.
    split; [apply rows_In, Hin|]. split; [exact Hh|]. split; [exact He|].
    intros Hexp. apply list_elem_of_In, elem_of_GetExpired in Hexp as [_ Hlt]. lia.
  - split.
    + intros Hnone id u Hid Hh.
      pose proof (List.find_none _ _ Hnone u (proj2 (rows_In t u) (ex_intro _ id Hid)))
        as Hp.
      cbv beta in Hp. rewrite Hh, String.eqb_refl in Hp. cbn [andb] in Hp.
      apply Z.ltb_ge in Hp. exact Hp.
    + intros Hall.
      destruct (List.find _ (stats.rows t)) as [u|] eqn:Hfind; [|reflexivity].
      exfalso. apply List.find_some in Hfind as [Hin Hp].
      apply rows_In in Hin as [id Hid].
      apply andb_true_iff in Hp as [Hh He].
      apply String.eqb_eq in Hh. apply Z.ltb_lt in He.
      specialize (Hall id u Hid Hh). lia.
Qed.

Lemma GetByHash_spec_witness :
  database.GetByHash "e3b0c44298fc1c14" 1000
    (service.records (Sample.one "f3Kx9" "del_t0k" 1000)) = None.
Proof.
  apply (proj2 (GetByHash_spec _ _ _)). intros id u Hid _.
  unfold Sample.one in Hid. cbn [service.records] in Hid.
  apply lookup_singleton_Some in Hid as [_ <-]. vm_compute. discriminate.
Defined.

Lemma filter_split3 (now : Z) (l : list database.Upload) :
  length l =
  (length (List.filter (stats.active now) l)
   + length (List.filter (fun u => (database.ExpiresAt u <? now)%Z) l)
   + length (List.filter (fun u => (database.ExpiresAt u =? now)%Z) l))%nat.
Proof.
  induction l as [|u l IH]; [reflexivity|].
  cbn [List.filter length]. unfold stats.active at 1.
  destruct (Z.ltb_spec now (database.ExpiresAt u)),
           (Z.ltb_spec (database.ExpiresAt u) now),
           (Z.eqb_spec (database.ExpiresAt u) now);
    cbn [length]; lia.
Qed.

(** X11. In the statistics every record is counted once: the total is the
    active records ([expires_at > now]), plus those [GetExpired] lists
    ([expires_at < now]), plus those expiring at this very instant, which
    are neither. With no record all four figures are zero. *)
Theorem GetStats_partition (now : Z) (t : database.table) :
  let st := stats.GetStats now t in
  stats.TotalUploads st =
    stats.ActiveUploads st
    + Z.of_nat (length (database.GetExpired now t))
    + Z.of_nat (length (List.filter (fun u => database.ExpiresAt u =? now)
                                    (stats.rows t))) /\
  0 <= stats.ActiveUploads st <= stats.TotalUploads st /\
  stats.TotalUploads st = Z.of_nat (size t) /\
  (t = ∅ ->
   st = {| stats.TotalUploads := 0; stats.ActiveUploads := 0;
           stats.TotalDownloads := 0; stats.StorageUsed := 0 |}).
Proof.
  cbv zeta. unfold stats.GetStats, database.GetExpired.
  cbn [stats.TotalUploads stats.ActiveUploads]. fold (stats.rows t).
  pose proof (filter_split3 now (stats.rows t)) as Hsplit.
  split; [lia|]. split; [lia|]. split.
  - unfold stats.rows. rewrite length_fmap, length_map_to_list. reflexivity.
  - intros ->. unfold stats.rows. rewrite map_to_list_empty. reflexivity.
Qed.

Lemma GetStats_partition_witness :
  stats.GetStats 1000 ∅ =
  {| stats.TotalUploads := 0; stats.ActiveUploads := 0;
     stats.TotalDownloads := 0; stats.StorageUsed := 0 |}.
Proof.
  apply (proj2 (proj2 (proj2 (GetStats_partition 1000 ∅)))). reflexivity.
Defined.

End RecordStore.

(** ** Uploads, from the draw of the id to the stored record *)

Section UploadRuns.

Import service.

(** Up to the point where something is stored, a run is decided by the
    size, the two tokens and the validator. *)
Lemma ProcessUpload_forward L cfg F now filename zipData size password w
    uploadID token src1 src2 originalSize :
  size <= MaxFileSize cfg ->
  generateSecureToken 16 (rand w) = (Ret (Ok uploadID), src1) ->
  generateSecureToken 24 src1 = (Ret (Ok token), src2) ->
  Magic.validateZipMagicBytes zipData = None ->
  validateAndMeasureZip L zipData = Ok originalSize ->
  ProcessUpload L cfg F now filename (Ok zipData) size password w =
  persist L cfg F now filename password uploadID ("del_" ++ token) zipData
          originalSize (with_rand src2 (with_rand src1 w)).
Proof.
  intros Hsize H1 H2 Hmagic Hscan. unfold ProcessUpload.
  destruct (Z.ltb_spec (MaxFileSize cfg) size) as [Hlt|_]; [lia|].
  unfold bind at 1. unfold newToken at 1. rewrite H1.
  unfold bind at 1. unfold newToken at 1. cbn [rand with_rand]. rewrite H2.
  unfold bind at 1. unfold lift at 1.
  unfold bind at 1. unfold check at 1. rewrite Hmagic.
  unfold bind at 1. unfold lift at 1. rewrite Hscan.
  reflexivity.
Qed.

(** A successful run, taken apart down to the stored record. *)
Lemma ProcessUpload_inversion L cfg F now filename data size password w r w' :
  ProcessUpload L cfg F now filename data size password w = (Ret (Ok r), w') ->
  exists zipData originalSize,
    data = Ok zipData /\
    validateAndMeasureZip L zipData = Ok originalSize /\
    records w !! res_ID r = None /\
    sanitizeFilename filename = Ret (res_Filename r) /\
    res_DownloadURL r = (BaseURL cfg ++ "/d/" ++ res_ID r)%string /\
    res_Size r = Z.of_nat (length zipData) /\
    res_ExpiresAt r = now + DefaultExpiry cfg /\
    (String.eqb password EmptyString = false ->
     exists h, bcrypt_GenerateFromPassword L password = Some h) /\
    blobs w' = <[res_ID r := zipData]> (blobs w) /\
    records w' =
      <[res_ID r := stored_record L cfg now password (res_ID r) (res_Filename r)
                      (res_DeletionToken r) zipData originalSize]> (records w).
Proof.
  intros H.
  pose proof (ProcessUpload_success _ _ _ _ _ _ _ _ _ _ _ H) as
    (uploadID & token & src1 & src2 & zipData & originalSize & storedBytes & fs1 &
     H1 & H2 & -> & Hmagic & Hscan & Hsave & Hfresh & Hid & Htok & Hname & _).
  assert (Hsize : size <= MaxFileSize cfg).
  { unfold ProcessUpload in H.
    destruct (Z.ltb_spec (MaxFileSize cfg) size) as [Hlt|Hle];
      [discriminate H | exact Hle]. }
  rewrite (ProcessUpload_forward _ _ _ _ _ _ _ _ _ _ _ _ _ _ Hsize H1 H2 Hmagic Hscan)
    in H.
  unfold persist in H. unfold bind at 1 in H. unfold storeSave at 1 in H.
  cbn [blobs with_rand] in H. rewrite Hsave in H.
  assert (Hstored : storedBytes = Z.of_nat (length zipData) /\
                    fs1 = <[uploadID := zipData]> (blobs w)).
  { clear H. unfold storage.Save in Hsave.
    destruct (storage.createFails F uploadID); [discriminate|].
    destruct (storage.writeFails F uploadID); [discriminate|].
    injection Hsave as <- <-. split; reflexivity. }
  destruct Hstored as [-> ->].
  unfold bind at 1 in H. unfold hashPassword at 1 in H.
  exists zipData, originalSize.
  unfold stored_record.
  destruct (String.eqb password EmptyString) eqn:Hpw.
  - unfold ret at 1 in H.
    unfold bind at 1 in H. unfold liftO at 1 in H. rewrite Hname in H.
    cbv zeta in H. unfold bind at 1 in H. unfold createRecord at 1 in H.
    unfold database.Create in H. cbn [database.ID records with_blobs with_rand] in H.
    rewrite Hfresh in H.
    unfold ret in H. injection H as <- <-.
    cbn in *. repeat split; try reflexivity; try assumption. discriminate.
  - destruct (bcrypt_GenerateFromPassword L password) as [h|] eqn:Hh.
    2:{ unfold bind, storeDelete_, fail in H. discriminate H. }
    unfold ret at 1 in H.
    unfold bind at 1 in H. unfold liftO at 1 in H. rewrite Hname in H.
    cbv zeta in H. unfold bind at 1 in H. unfold createRecord at 1 in H.
    unfold database.Create in H. cbn [database.ID records with_blobs with_rand] in H.
    rewrite Hfresh in H.
    unfold ret in H. injection H as <- <-.
    cbn in *. repeat split; try reflexivity; try assumption.
    intros _. exists h. reflexivity.
Qed.





(** X14. An upload can be deleted with the token it returned: [DeleteUpload]
    succeeds and the record store is again what it was before the upload;
    and when the store removes the file and no file was under the id
    before, so is the blob store. *)
Theorem upload_then_DeleteUpload L cfg F now filename data size password w r w' :
  ProcessUpload L cfg F now filename data size password w = (Ret (Ok r), w') ->
  exists w'',
    DeleteUpload F (res_ID r) (res_DeletionToken r) w' = (None, w'') /\
    records w'' = records w /\
    (storage.removeFails F (res_ID r) = false ->
     blobs w !! res_ID r = None -> blobs w'' = blobs w).
Proof.
  intros H.
  destruct (ProcessUpload_inversion _ _ _ _ _ _ _ _ _ _ _ H)
    as (zipData & osz & _ & _ & Hfresh & _ & _ & _ & _ & _ & Hblobs & Hrec).
  set (u := stored_record L cfg now password (res_ID r) (res_Filename r)
              (res_DeletionToken r) zipData osz) in *.
  assert (Hu : records w' !! res_ID r = Some u)
    by (rewrite Hrec; apply lookup_insert_eq).
  pose proof (DeleteUpload_match F _ _ _ Hu) as Hdel.
  change (database.DeletionToken u) with (res_DeletionToken r) in Hdel.
  eexists. split; [exact Hdel|]. cbn [records blobs with_records with_blobs].
  split.
  - rewrite Hrec. apply delete_insert_id, Hfresh.
  - intros Hrm Hnone. unfold storage.Delete. rewrite Hrm. cbn [snd].
    rewrite Hblobs. apply delete_insert_id, Hnone.
Qed.

Lemma upload_then_DeleteUpload_witness :
  exists r w' w'',
    ProcessUpload (Sample.lib []) Sample.cfg Sample.healthy 1000
                  "notes.zip" (Ok Sample.empty_zip) 22 "" (Sample.fresh 40)
      = (Ret (Ok r), w') /\
    DeleteUpload Sample.healthy (res_ID r) (res_DeletionToken r) w' = (None, w'') /\
    records w'' = ∅.
Proof.
  destruct (ProcessUpload (Sample.lib []) Sample.cfg Sample.healthy 1000
              "notes.zip" (Ok Sample.empty_zip) 22 "" (Sample.fresh 40))
    as [[[r|e]|] w'] eqn:Hrun; [|vm_compute in Hrun; discriminate Hrun ..].
  destruct (upload_then_DeleteUpload _ _ _ _ _ _ _ _ _ _ _ Hrun)
    as (w'' & Hdel & Hrec & _).
  exists r, w', w''. split; [reflexivity|]. split; [exact Hdel | exact Hrec].
Defined.

End UploadRuns.

(** ** Downloads *)

Section Downloads.

Import service.

Lemma Download_live L F basePath now id password w u :
  records w !! id = Some u ->
  now <= database.ExpiresAt u ->
  Download L F basePath now id password w =
  Download_rest L F basePath id password u w.
Proof.
  intros Hu Hnow. rewrite (Download_unfold _ _ _ _ _ _ _ _ Hu).
  unfold After. destruct (Z.ltb_spec (database.ExpiresAt u) now); [lia | reflexivity].
Qed.

Lemma Download_served L F basePath now id password w u bs :
  records w !! id = Some u ->
  now <= database.ExpiresAt u ->
  checkPassword L u password = None ->
  blobs w !! id = Some bs ->
  storage.statFails F id = false ->
  exists path,
    Download L F basePath now id password w =
    (Ok (path, database.Filename u),
     with_records (<[id := database.bump u]> (records w)) w).
Proof.
  intros Hu Hnow Hpw Hblob Hstat.
  rewrite (Download_live _ _ _ _ _ _ _ _ Hu Hnow).
  unfold Download_rest, storage.GetPath, database.IncrementDownloadCount.
  rewrite Hpw, Hblob, Hstat, Hu. eexists. reflexivity.
Qed.

(** X15. The gate of [Download] on a record that has not expired. With a
    password hash stored, an empty password is answered with
    password-required and one that [bcrypt] rejects with invalid-password;
    a record without a hash is served whatever password is sent. Once
    past the gate, a missing blob gives an internal error, and otherwise
    the download is served under the stored file name and the download
    count of this record, below the limit of its [INTEGER] column, goes up
    by one. Every refusal leaves the world as it was, the count included. *)
Theorem Download_gate L F basePath now id password w u :
  records w !! id = Some u ->
  now <= database.ExpiresAt u ->
  (forall h,
      database.PasswordHash u = Some h ->
      (password = EmptyString ->
       Download L F basePath now id password w = (Err ErrPasswordRequired, w)) /\
      (password <> EmptyString ->
       bcrypt_CompareHashAndPassword L h password = false ->
       Download L F basePath now id password w = (Err ErrInvalidPassword, w))) /\
  (database.PasswordHash u = None \/
   (exists h, database.PasswordHash u = Some h /\ password <> EmptyString /\
              bcrypt_CompareHashAndPassword L h password = true) ->
   (blobs w !! id = None ->
    exists what,
      Download L F basePath now id password w = (Err (ErrInternal what), w)) /\
   (forall bs,
       blobs w !! id = Some bs ->
       storage.statFails F id = false ->
       database.DownloadCount u < max_int32 ->
       exists path w',
         Download L F basePath now id password w =
           (Ok (path, database.Filename u), w') /\
         blobs w' = blobs w /\
         (database.DownloadCount <$> records w' !! id) =
           Some (database.DownloadCount u + 1) /\
         (forall id', id' <> id -> records w' !! id' = records w !! id'))).
Proof.
  intros Hu Hnow. split.
  - intros h Hh. rewrite (Download_live _ _ _ _ _ _ _ _ Hu Hnow).
    unfold Download_rest, checkPassword. rewrite Hh. split.
    + intros ->. reflexivity.
    + intros Hne Hcmp.
      destruct (String.eqb_spec password EmptyString) as [He|_]; [contradiction|].
      rewrite Hcmp. reflexivity.
  - intros Hok.
    assert (Hpw : checkPassword L u password = None).
    { unfold checkPassword.
      destruct Hok as [-> | (h & -> & Hne & Hcmp)]; [reflexivity|].
      destruct (String.eqb_spec password EmptyString) as [He|_]; [contradiction|].
      rewrite Hcmp. reflexivity. }
    split.
    + intros Hnone. rewrite (Download_live _ _ _ _ _ _ _ _ Hu Hnow).
      unfold Download_rest, storage.GetPath. rewrite Hpw, Hnone.
      eexists. reflexivity.
    + intros bs Hblob Hstat _.
      destruct (Download_served _ _ basePath _ _ _ _ _ _ Hu Hnow Hpw Hblob Hstat)
        as [path Hd].
      eexists _, _. split; [exact Hd|]. cbn [blobs records with_records].
      split; [reflexivity|]. split.
      * rewrite lookup_insert_eq. reflexivity.
      * intros id' Hne. apply lookup_insert_ne. congruence.
Qed.

Lemma Download_gate_witness :
  let u := {| database.ID := "f3Kx9"; database.Filename := "notes.zip";
              database.OriginalSize := 0; database.CompressedSize := 22;
              database.FileHash := "e3b0c44298fc1c14"; database.UploadedAt := 0;
              database.ExpiresAt := 1000; database.DownloadCount := 4;
              database.PasswordHash := Some "$2a$10$s3cret"%string;
              database.DeletionToken := "del_t0k"; database.CreatedAt := 0 |} in
  let w := {| records := {[ "f3Kx9"%string := u ]};
              blobs := {[ "f3Kx9"%string := Sample.empty_zip ]};
              rand := [] |} in
  Download (Sample.lib []) Sample.healthy "/srv/beam" 500 "f3Kx9" "" w
    = (Err ErrPasswordRequired, w) /\
  Download (Sample.lib []) Sample.healthy "/srv/beam" 500 "f3Kx9" "guess" w
    = (Err ErrInvalidPassword, w) /\
  exists path w',
    Download (Sample.lib []) Sample.healthy "/srv/beam" 500 "f3Kx9" "s3cret" w
      = (Ok (path, "notes.zip"%string), w') /\
    (database.DownloadCount <$> records w' !! "f3Kx9"%string) = Some 5.
Proof.
  intros u w.
  assert (Hu : records w !! "f3Kx9"%string = Some u) by (vm_compute; reflexivity).
  assert (Hnow : 500 <= database.ExpiresAt u) by (vm_compute; discriminate).
  split; [|split].
  - destruct (Download_gate (Sample.lib []) Sample.healthy "/srv/beam" 500
                "f3Kx9" "" w u Hu Hnow) as [Hgate _].
    apply (Hgate _ eq_refl). reflexivity.
  - destruct (Download_gate (Sample.lib []) Sample.healthy "/srv/beam" 500
                "f3Kx9" "guess" w u Hu Hnow) as [Hgate _].
    apply (Hgate _ eq_refl); [discriminate | vm_compute; reflexivity].
  - destruct (Download_gate (Sample.lib []) Sample.healthy "/srv/beam" 500
                "f3Kx9" "s3cret" w u Hu Hnow) as [_ Hserve].
    destruct Hserve as [_ Hserve].
    { right. eexists. split; [reflexivity|].
      split; [discriminate | vm_compute; reflexivity]. }
    destruct (Hserve Sample.empty_zip) as (path & w' & Hd & _ & Hcount & _);
      [vm_compute; reflexivity | reflexivity | vm_compute; reflexivity |].
    exists path, w'. split; [exact Hd | exact Hcount].
Defined.

(** X16. Whatever it is asked, a [Download] that returns an error has
    changed nothing: neither store, and no download count. *)
Theorem Download_error_changes_nothing L F basePath now id password w e :
  fst (Download L F basePath now id password w) = Err e ->
  snd (Download L F basePath now id password w) = w.
Proof.
  unfold Download.
  destruct (database.GetByID id (records w)) as [u|]; [|reflexivity].
  destruct (After now (database.ExpiresAt u)); [reflexivity|].
  destruct (checkPassword L u password); [reflexivity|].
  destruct (storage.GetPath F basePath id (blobs w)); [|reflexivity].
  destruct (database.IncrementDownloadCount id (records w)). discriminate.
Qed.

Lemma Download_error_changes_nothing_witness :
  snd (Download (Sample.lib []) Sample.healthy "/srv/beam" 5000 "f3Kx9" ""
         (Sample.one "f3Kx9" "del_t0k" 1000))
  = Sample.one "f3Kx9" "del_t0k" 1000.
Proof.
  apply (Download_error_changes_nothing _ _ _ _ _ _ _ ErrExpired).
  vm_compute. reflexivity.
Defined.




End Downloads.

(** ** Uploads that go wrong after the blob is written *)

Section UploadMishaps.

Import service.

(** X18. A file name on which [sanitizeFilename] panics takes
    [ProcessUpload] down after the blob has been written: the call panics,
    no record is created, and the blob stays in the store under the new id,
    without a record. *)
Theorem upload_panic_leaves_blob L cfg F now filename zipData size password w
    uploadID token src1 src2 originalSize :
  size <= MaxFileSize cfg ->
  generateSecureToken 16 (rand w) = (Ret (Ok uploadID), src1) ->
  generateSecureToken 24 src1 = (Ret (Ok token), src2) ->
  Magic.validateZipMagicBytes zipData = None ->
  validateAndMeasureZip L zipData = Ok originalSize ->
  storage.createFails F uploadID = false ->
  storage.writeFails F uploadID = None ->
  (password = EmptyString \/
   exists h, bcrypt_GenerateFromPassword L password = Some h) ->
  sanitizeFilename filename = Panic ->
  exists w',
    ProcessUpload L cfg F now filename (Ok zipData) size password w = (Panic, w') /\
    records w' = records w /\
    blobs w' !! uploadID = Some zipData.
Proof.
  intros Hsize H1 H2 Hmagic Hscan Hc Hw Hpw Hname.
  rewrite (ProcessUpload_forward _ _ _ _ _ _ _ _ _ _ _ _ _ _ Hsize H1 H2 Hmagic Hscan).
  unfold persist. unfold bind at 1. unfold storeSave at 1, storage.Save.
  rewrite Hc, Hw. unfold bind at 1. unfold hashPassword at 1.
  assert (Hhash : exists ph,
    (if String.eqb password EmptyString then ret None
     else match bcrypt_GenerateFromPassword L password with
          | Some h => ret (Some h)
          | None => let* _ := storeDelete_ F uploadID in
                    fail (ErrInternal "failed to hash password")
          end) = ret ph).
  { destruct Hpw as [-> | [h Hh]]; [exists None; reflexivity|].
    destruct (String.eqb password EmptyString); [exists None; reflexivity|].
    rewrite Hh. exists (Some h). reflexivity. }
  destruct Hhash as [ph ->]. unfold ret at 1.
  unfold bind at 1. unfold liftO at 1. rewrite Hname.
  eexists. split; [reflexivity|]. cbn [records blobs with_blobs with_rand].
  split; [reflexivity | apply lookup_insert_eq].
Qed.

Lemma upload_panic_leaves_blob_witness :
  exists w',
    ProcessUpload (Sample.lib []) Sample.cfg Sample.healthy 1000
      (String "."%char (GoString.of_bytes (repeat "a"%char 255)))
      (Ok Sample.empty_zip) 22 "" (Sample.fresh 40) = (Panic, w') /\
    records w' = ∅ /\
    blobs w' !! "ahovCJQX4bipwDKR"%string = Some Sample.empty_zip.
Proof.
  apply (upload_panic_leaves_blob (Sample.lib []) Sample.cfg Sample.healthy 1000
           (String "."%char (GoString.of_bytes (repeat "a"%char 255)))
           Sample.empty_zip 22 "" (Sample.fresh 40)
           "ahovCJQX4bipwDKR" "Y5cjqxELSZ6dkryFMT07elsz"
           (skipn 16 (rand (Sample.fresh 40))) [] 0).
  all: try (vm_compute; reflexivity).
  - vm_compute. discriminate.
  - left. reflexivity.
Defined.

(** X19. When the id drawn for an upload is already the id of a stored
    record, the new blob is written over the stored one, the record
    creation is refused and the compensating delete removes the file: the
    call returns an error, the old record is still there, and, unless the
    store refuses the removal, its blob is gone. *)
Theorem upload_id_collision L cfg F now filename zipData size password w
    uploadID token src1 src2 originalSize name old :
  size <= MaxFileSize cfg ->
  generateSecureToken 16 (rand w) = (Ret (Ok uploadID), src1) ->
  generateSecureToken 24 src1 = (Ret (Ok token), src2) ->
  Magic.validateZipMagicBytes zipData = None ->
  validateAndMeasureZip L zipData = Ok originalSize ->
  storage.createFails F uploadID = false ->
  storage.writeFails F uploadID = None ->
  storage.removeFails F uploadID = false ->
  (password = EmptyString \/
   exists h, bcrypt_GenerateFromPassword L password = Some h) ->
  sanitizeFilename filename = Ret name ->
  records w !! uploadID = Some old ->
  exists w',
    ProcessUpload L cfg F now filename (Ok zipData) size password w =
      (Ret (Err (ErrInternal "failed to create upload record")), w') /\
    records w' = records w /\
    blobs w' !! uploadID = None.
Proof.
  intros Hsize H1 H2 Hmagic Hscan Hc Hw Hr Hpw Hname Hold.
  rewrite (ProcessUpload_forward _ _ _ _ _ _ _ _ _ _ _ _ _ _ Hsize H1 H2 Hmagic Hscan).
  unfold persist. unfold bind at 1. unfold storeSave at 1, storage.Save.
  rewrite Hc, Hw. unfold bind at 1. unfold hashPassword at 1.
  assert (Hhash : exists ph,
    (if String.eqb password EmptyString then ret None
     else match bcrypt_GenerateFromPassword L password with
          | Some h => ret (Some h)
          | None => let* _ := storeDelete_ F uploadID in
                    fail (ErrInternal "failed to hash password")
          end) = ret ph).
  { destruct Hpw as [-> | [h Hh]]; [exists None; reflexivity|].
    destruct (String.eqb password EmptyString); [exists None; reflexivity|].
    rewrite Hh. exists (Some h). reflexivity. }
  destruct Hhash as [ph ->]. unfold ret at 1.
  unfold bind at 1. unfold liftO at 1. rewrite Hname. cbv zeta.
  unfold bind at 1. unfold createRecord at 1, database.Create.
  cbn [database.ID records with_blobs with_rand]. rewrite Hold.
  unfold bind, storeDelete_, fail, storage.Delete.
  cbn [blobs with_blobs with_records with_rand]. rewrite Hr.
  eexists. split; [reflexivity|]. cbn [records blobs snd].
  split; [reflexivity | apply lookup_delete_eq].
Qed.

Lemma upload_id_collision_witness :
  let w0 := snd (ProcessUpload (Sample.lib []) Sample.cfg Sample.healthy 1000
                   "first.zip" (Ok Sample.empty_zip) 22 "" (Sample.fresh 40)) in
  let w := rewound w0 40 in
  is_Some (records w !! "ahovCJQX4bipwDKR"%string) /\
  is_Some (blobs w !! "ahovCJQX4bipwDKR"%string) /\
  exists w',
    ProcessUpload (Sample.lib []) Sample.cfg Sample.healthy 2000
      "second.zip" (Ok Sample.empty_zip) 22 "" w
    = (Ret (Err (ErrInternal "failed to create upload record")), w') /\
    records w' = records w /\
    blobs w' !! "ahovCJQX4bipwDKR"%string = None.
Proof.
  intros w0 w.
  assert (Hold : records w !! "ahovCJQX4bipwDKR"%string =
                 Some (stored_record (Sample.lib []) Sample.cfg 1000 ""
                         "ahovCJQX4bipwDKR" "first.zip"
                         "del_Y5cjqxELSZ6dkryFMT07elsz" Sample.empty_zip 0))
    by (vm_compute; reflexivity).
  split; [rewrite Hold; eexists; reflexivity|].
  split; [vm_compute; eexists; reflexivity|].
  apply (upload_id_collision (Sample.lib []) Sample.cfg Sample.healthy 2000
           "second.zip" Sample.empty_zip 22 "" w
           "ahovCJQX4bipwDKR" "Y5cjqxELSZ6dkryFMT07elsz"
           (skipn 16 (rand (Sample.fresh 40))) [] 0 "second.zip"
           (stored_record (Sample.lib []) Sample.cfg 1000 ""
              "ahovCJQX4bipwDKR" "first.zip"
              "del_Y5cjqxELSZ6dkryFMT07elsz" Sample.empty_zip 0)).
  all: try exact Hold.
  all: try (vm_compute; reflexivity).
  - vm_compute. discriminate.
  - left. reflexivity.
Defined.

End UploadMishaps.

(** ** Invariants of the two stores *)

Section Invariants.

Import service.

Lemma ProcessUpload_panic L cfg F now filename data size password w w' :
  ProcessUpload L cfg F now filename data size password w = (Panic, w') ->
  records w' = records w.
Proof.
  unfold ProcessUpload. intros H.
  destruct (MaxFileSize cfg <? size); [discriminate H|].
  unfold bind at 1 in H. unfold newToken at 1 in H.
  destruct (generateSecureToken 16 (rand w)) as [[[uploadID|e1]|] src1] eqn:E1;
    try discriminate H.
  2:{ injection H as <-. reflexivity. }
  unfold bind at 1 in H. unfold newToken at 1 in H. simpl rand in H.
  destruct (generateSecureToken 24 src1) as [[[token|e2]|] src2] eqn:E2;
    try discriminate H.
  2:{ injection H as <-. reflexivity. }
  unfold bind at 1 in H. unfold lift at 1 in H.
  destruct data as [zipData|e3]; [|discriminate H].
  unfold bind at 1 in H. unfold check at 1 in H.
  destruct (Magic.validateZipMagicBytes zipData); [discriminate H|].
  unfold bind at 1 in H. unfold lift at 1 in H.
  destruct (validateAndMeasureZip L zipData) as [originalSize|e5];
    [|discriminate H].
  unfold bind at 1 in H. unfold storeSave at 1 in H. simpl blobs in H.
  destruct (storage.Save F uploadID zipData (blobs w)) as [[storedBytes|e6] fs1];
    [|discriminate H].
  unfold bind at 1 in H. unfold hashPassword at 1 in H.
  destruct (String.eqb password EmptyString);
    [|destruct (bcrypt_GenerateFromPassword L password) as [h|]].
  3:{ unfold bind, storeDelete_, fail in H. discriminate H. }
  all: unfold ret at 1 in H.
  all: unfold bind at 1 in H; unfold liftO at 1 in H.
  all: destruct (sanitizeFilename filename) as [name|];
    [|injection H as <-; reflexivity].
  all: cbv zeta in H; unfold bind at 1 in H; unfold createRecord at 1 in H.
  all: unfold database.Create in H; simpl in H.
  all: destruct (records w !! uploadID); [|discriminate H].
  all: unfold bind, storeDelete_, fail in H; discriminate H.
Qed.

Lemma table_wf_delete (t : database.table) (id : string) :
  table_wf t -> table_wf (delete id t).
Proof.
  intros Hwf k u H. apply lookup_delete_Some in H as [_ H]. apply (Hwf _ _ H).
Qed.

Lemma runCleanup_state F now w id :
  records (snd (cleanup.runCleanup F now w)) !! id =
    (if reclaimed F (database.GetExpired now (records w)) id
     then None else records w !! id) /\
  blobs (snd (cleanup.runCleanup F now w)) !! id =
    (if reclaimed F (database.GetExpired now (records w)) id
     then None else blobs w !! id).
Proof.
  unfold cleanup.runCleanup.
  destruct (database.GetExpired now (records w)) as [|u0 l] eqn:He.
  - split; reflexivity.
  - pose proof (sweep_state F (u0 :: l)
                  {| cleanup.cleaned := 0; cleanup.failed := 0 |} w id) as Hs.
    destruct (cleanup.sweep F (u0 :: l) _ w) as [s w1]. exact Hs.
Qed.

(** X20. Every row of the record store sits under its own id, and every
    operation of the service keeps it so: [ProcessUpload] whatever its
    outcome, [Download], [DeleteUpload] and the reclamation cycle. *)
Theorem table_wf_kept L cfg F basePath now filename data size id password token w :
  table_wf (records w) ->
  table_wf (records (snd (ProcessUpload L cfg F now filename data size password w))) /\
  table_wf (records (snd (Download L F basePath now id password w))) /\
  table_wf (records (snd (DeleteUpload F id token w))) /\
  table_wf (records (snd (cleanup.runCleanup F now w))).
Proof.
  intros Hwf. split; [|split; [|split]].
  - destruct (ProcessUpload L cfg F now filename data size password w)
      as [[[r|e]|] w'] eqn:H; cbn [snd].
    + destruct (ProcessUpload_inversion _ _ _ _ _ _ _ _ _ _ _ H)
        as (zipData & osz & _ & _ & _ & _ & _ & _ & _ & _ & _ & ->).
      apply (table_wf_insert _ (stored_record L cfg now password (res_ID r)
               (res_Filename r) (res_DeletionToken r) zipData osz)), Hwf.
    + apply ProcessUpload_failure in H as [-> _]. exact Hwf.
    + apply ProcessUpload_panic in H as ->. exact Hwf.
  - unfold Download, database.GetByID.
    destruct (records w !! id) as [u|] eqn:Hu; [|exact Hwf].
    destruct (After now (database.ExpiresAt u)); [exact Hwf|].
    destruct (checkPassword L u password); [exact Hwf|].
    destruct (storage.GetPath F basePath id (blobs w)); [|exact Hwf].
    unfold database.IncrementDownloadCount. rewrite Hu. cbn [snd records with_records].
    pose proof (Hwf _ _ Hu) as Hid.
    replace id with (database.ID (database.bump u)) at 1 by exact Hid.
    apply table_wf_insert, Hwf.
  - unfold DeleteUpload, database.GetByID.
    destruct (records w !! id) as [u|] eqn:Hu; [|exact Hwf].
    destruct (negb _); [exact Hwf|].
    destruct (storage.Delete F id (blobs w)) as [r fs].
    unfold database.Delete. cbn [records with_blobs]. rewrite Hu.
    cbn [snd records with_records]. apply table_wf_delete, Hwf.
  - intros k u Hk.
    destruct (runCleanup_state F now w k) as [Hr _]. rewrite Hr in Hk.
    destruct (reclaimed F _ k); [discriminate Hk | apply (Hwf _ _ Hk)].
Qed.

Lemma table_wf_kept_witness :
  table_wf (records (snd (ProcessUpload (Sample.lib []) Sample.cfg Sample.healthy 1000
                            "notes.zip" (Ok Sample.empty_zip) 22 "" (Sample.fresh 40)))).
Proof.
  apply (table_wf_kept (Sample.lib []) Sample.cfg Sample.healthy "/srv/beam" 1000
           "notes.zip" (Ok Sample.empty_zip) 22 "f3Kx9" "" "del_t0k" (Sample.fresh 40)).
  apply table_wf_empty.
Defined.



End Invariants.

(** ** The limiter over time and across addresses *)

Section LimiterMore.

Import limiter.

Lemma allow_settings (now : Z) (ip : string) (rl : RateLimiter) :
  rate (snd (allow now ip rl)) = rate rl /\
  burst (snd (allow now ip rl)) = burst rl.
Proof. rewrite allow_step. split; reflexivity. Qed.

Lemma serve_run (ip : string) (trace : list (Z * string)) :
  forall rl,
    verdicts_of ip (fst (serve trace rl)) =
    limiter_run (rate rl) (burst rl) (times_of ip trace) (visitors rl !! ip).
Proof.
  induction trace as [|[now ip0] rest IH]; intros rl; [reflexivity|].
  cbn [serve]. rewrite allow_step.
  set (st := limiter_step (rate rl) (burst rl) now (visitors rl !! ip0)).
  specialize (IH (with_visitor ip0 (snd st) rl)).
  destruct (serve rest (with_visitor ip0 (snd st) rl)) as [oks rl2].
  cbn [fst] in *. unfold verdicts_of, times_of in *.
  cbn [List.filter fst snd].
  cbn [with_visitor visitors rate burst] in IH.
  destruct (String.eqb_spec ip0 ip) as [->|Hne].
  - cbn [List.map fst snd limiter_run]. rewrite IH, lookup_insert_eq.
    subst st. destruct (limiter_step _ _ now (visitors rl !! ip)); reflexivity.
  - rewrite IH, lookup_insert_ne by exact Hne. reflexivity.
Qed.

(** X22. Addresses do not interfere: in any interleaving of requests, the
    verdicts given to one address are those it would get if its requests
    were the only ones. *)
Theorem limiter_isolation (ip : string) (trace : list (Z * string)) (rl : RateLimiter) :
  verdicts_of ip (fst (serve trace rl)) = fst (requests ip (times_of ip trace) rl).
Proof. rewrite serve_run, requests_run. reflexivity. Qed.

(** X23. The sweep keeps, unchanged, the entries seen in the last ten
    minutes and drops the others, and it changes no setting. An address
    whose entry was dropped is allowed on its next request, whatever its
    balance was; for an address whose entry was kept, the next verdict is
    the one it would have got without the sweep. *)
Theorem janitor_cleanup (now now' : Z) (ip : string) (rl : RateLimiter) :
  let rl' := janitor.cleanup now rl in
  rate rl' = rate rl /\ burst rl' = burst rl /\
  (visitors rl !! ip = None -> visitors rl' !! ip = None) /\
  (forall v,
      visitors rl !! ip = Some v ->
      (now - janitor.idle <= lastCheck v ->
       visitors rl' !! ip = Some v /\
       fst (allow now' ip rl') = fst (allow now' ip rl)) /\
      (lastCheck v < now - janitor.idle ->
       visitors rl' !! ip = None /\
       fst (allow now' ip rl') = true)).
Proof.
  cbv zeta. split; [reflexivity|]. split; [reflexivity|].
  unfold janitor.cleanup. cbn [visitors]. split.
  - intros Hnone. apply map_lookup_filter_None. left. exact Hnone.
  - intros v Hv. split.
    + intros Hfresh.
      assert (Hkept : filter (fun kv => janitor.Before (lastCheck (snd kv))
                                          (now - janitor.idle) = false)
                        (visitors rl) !! ip = Some v).
      { apply map_lookup_filter_Some. split; [exact Hv|].
        cbn [snd]. unfold janitor.Before. apply Z.ltb_ge. exact Hfresh. }
      split; [exact Hkept|].
      rewrite !allow_step. cbn [fst visitors rate burst].
      rewrite Hkept, Hv. reflexivity.
    + intros Hstale.
      assert (Hgone : filter (fun kv => janitor.Before (lastCheck (snd kv))
                                          (now - janitor.idle) = false)
                        (visitors rl) !! ip = None).
      { apply map_lookup_filter_None. right. intros v' Hv'.
        rewrite Hv in Hv'. injection Hv' as <-. cbn [snd].
        unfold janitor.Before.
        destruct (Z.ltb_spec (lastCheck v) (now - janitor.idle)); [discriminate | lia]. }
      split; [exact Hgone|].
      rewrite allow_step. cbn [fst visitors rate burst]. rewrite Hgone. reflexivity.
Qed.

(** An address that has used up its burst, idle for eleven minutes with a
    refill rate too low to earn a token in that time: without the sweep it
    is denied, after the sweep it is allowed. *)
Lemma janitor_cleanup_witness :
  let rl := snd (requests "10.0.0.7" (repeat 0 3) (NewRateLimiter 0.0009765625 3)) in
  fst (allow 660000000000 "10.0.0.7" rl) = false /\
  fst (allow 660000000000 "10.0.0.7" (janitor.cleanup 660000000000 rl)) = true.
Proof.
  intros rl. split; [vm_compute; reflexivity|].
  destruct (janitor_cleanup 660000000000 660000000000 "10.0.0.7" rl)
    as (_ & _ & _ & Hentry).
  destruct (Hentry {| tokens := 0; lastCheck := 0 |}) as [_ Hstale];
    [vm_compute; reflexivity|].
  apply Hstale. vm_compute. reflexivity.
Defined.

End LimiterMore.

Section LimiterBalance.

Import limiter.

Lemma SFcompare_refl (f : SpecFloat.spec_float) :
  SpecFloat.SFcompare f f <> Some Lt.
Proof.
  destruct f as [s|s| |s m e]; simpl; try (destruct s; discriminate);
    try discriminate.
  destruct s; rewrite Z.compare_refl, Pos.compare_refl; simpl; discriminate.
Qed.

Lemma float_ltb_irrefl (x : float) : PrimFloat.ltb x x = false.
Proof.
  rewrite FloatAxioms.ltb_spec. unfold SpecFloat.SFltb.
  pose proof (SFcompare_refl (Prim2SF x)) as H.
  destruct (SpecFloat.SFcompare (Prim2SF x) (Prim2SF x)) as [[| |]|];
    congruence.
Qed.

(** X24. The balance a request is judged on is never above the burst
    capacity: after the refill the balance does not compare greater than
    [float64(burst)]. And a request that is denied leaves in the entry
    exactly that balance, which compares below one token. *)
Theorem refill_capped (now : Z) (ip : string) (rl : RateLimiter) (v : visitor) :
  visitors rl !! ip = Some v ->
  PrimFloat.ltb (float64_of_int (burst rl)) (refill rl v now) = false /\
  (fst (allow now ip rl) = false ->
   visitors (snd (allow now ip rl)) !! ip =
     Some {| tokens := refill rl v now; lastCheck := now |} /\
   PrimFloat.ltb (refill rl v now) 1 = true).
Proof.
  intros Hv. split.
  - unfold refill. cbv zeta.
    set (sum := PrimFloat.add (tokens v) _).
    destruct (PrimFloat.ltb (float64_of_int (burst rl)) sum) eqn:Hcap;
      [apply float_ltb_irrefl | exact Hcap].
  - unfold allow. rewrite Hv. cbv zeta.
    destruct (PrimFloat.ltb (refill rl v now) 1) eqn:Hlow; cbn [fst snd];
      [|discriminate].
    intros _. split; [|reflexivity].
    cbn [with_visitor visitors]. apply lookup_insert_eq.
Qed.

Lemma refill_capped_witness :
  let rl := snd (requests "10.0.0.7" (repeat 0 20) (NewRateLimiter 10 20)) in
  PrimFloat.ltb (float64_of_int (burst rl))
                (refill rl {| tokens := 0; lastCheck := 0 |} 3600000000000) = false.
Proof.
  intros rl.
  apply (proj1 (refill_capped 3600000000000 "10.0.0.7" rl
                  {| tokens := 0; lastCheck := 0 |} ltac:(vm_compute; reflexivity))).
Defined.

End LimiterBalance.

(** ** The handlers *)

Section Handlers.

Import service.







End Handlers.

(** ** The statistics follow the operations *)

Section StatsFollow.

Import service.








End StatsFollow.
